(** * treeSelect: the selection engine of the TreeNode / TreeSelect components

    A shallow embedding of the script parts of the four Vue single-file
    components of the repository:

    - [TreeNodeV1]   : src/unnamed/part_000 (TreeNode, array-only model value)
    - [TreeNodeV2]   : src/unnamed/part_001 (TreeNode with the [multiple] prop
                       and the [select] event)
    - [TreeSelectV1] : src/unnamed/part_002 (TreeSelect, count summary label)
    - [TreeSelectV2] : src/src/components/TreeSelect/TreeSelect.vue

    Computed properties become functions of the props record, event emission
    becomes the list of emitted events in emission order. *)

From Stdlib Require Import ZArith String Ascii List Bool Lia DecimalString Sorted.
From stdpp Require Import gmap strings list.

Open Scope string_scope.

(** ** JavaScript values used by the components *)

(** [id: any] of a node: the ids the components are used with are strings and
    integer numbers (of a magnitude a JavaScript number holds exactly).  [===], [Array.prototype.includes] and [Set] membership
    never identify a number with a string. *)
Inductive Id : Type :=
  | IdNum (n : Z)
  | IdStr (s : string).

#[global] Instance Id_eq_dec : EqDecision Id.
Proof. solve_decision. Defined.

(** [props.modelValue] has type [[Array, String, Number]] with default [null];
    [MVNull] stands for [null] and [undefined], which the code only ever tests
    with [!= null], truthiness, [Array.isArray] and [===] against an id. *)
Inductive ModelValue : Type :=
  | MVNull
  | MVId (i : Id)
  | MVArr (ids : list Id).

Module JsString.

Definition lower_ascii (c : ascii) : ascii :=
  let n := nat_of_ascii c in
  if (65 <=? n)%nat && (n <=? 90)%nat then ascii_of_nat (n + 32) else c.

(** [String.prototype.toLowerCase] on strings of ASCII characters: the
    letters A to Z are lowered, every other character is left as it is. *)
Fixpoint toLowerCase (s : string) : string :=
  match s with
  | EmptyString => EmptyString
  | String c r => String (lower_ascii c) (toLowerCase r)
  end.

(** [s.includes(t)]: [t] occurs in [s] as a contiguous substring. *)
Fixpoint includes (s t : string) : bool :=
  String.prefix t s ||
  match s with
  | EmptyString => false
  | String _ r => includes r t
  end.

(** [!s] for a string. *)
Definition falsy (s : string) : bool := String.eqb s "".

(** [arr.join(sep)] for an array of strings. *)
Fixpoint join (sep : string) (l : list string) : string :=
  match l with
  | [] => ""
  | [x] => x
  | x :: r => x ++ sep ++ join sep r
  end.

(** [String(n)] for an integer number, as plain decimal digits (what
    JavaScript prints for integers below 10^21). *)
Definition of_number (n : Z) : string := NilZero.string_of_int (Z.to_int n).

End JsString.

Module JsArray.

(** [arr.includes(x)] *)
Definition includes (arr : list Id) (x : Id) : bool := bool_decide (x ∈ arr).

(** Insertion of [x] in front of a sorted tail: [x] stays before the
    elements it does not compare greater than. *)
Fixpoint insert (cmp : Id -> Id -> Z) (x : Id) (l : list Id) : list Id :=
  match l with
  | [] => [x]
  | y :: r => if (cmp y x <? 0)%Z then y :: insert cmp x r else x :: y :: r
  end.

(** [arr.sort(cmp)]: the sort is stable, so for a comparator that compares
    keys the result is the one insertion sort gives. *)
Definition sort (cmp : Id -> Id -> Z) (arr : list Id) : list Id :=
  foldr (insert cmp) [] arr.

End JsArray.

(** A JavaScript [Set] of ids: its elements in insertion order. *)
Module JsSet.

Definition has (s : list Id) (x : Id) : bool := bool_decide (x ∈ s).

Definition add (s : list Id) (x : Id) : list Id :=
  if has s x then s else s ++ [x].

Definition delete (s : list Id) (x : Id) : list Id :=
  filter (λ y, y ≠ x) s.

(** [new Set(arr)] *)
Definition new (arr : list Id) : list Id := foldl add [] arr.

End JsSet.

(** A plain object [{}] used as a map from property keys to label strings.
    Own properties are a [gmap]; a read that misses the own properties goes to
    [Object.prototype]. *)
Module JsObject.

Inductive Value : Type :=
  | undefined
  | str (s : string)
  | inherited (member : string).

(** The property names of [Object.prototype]. *)
Definition prototype_members : list string :=
  [ "constructor"; "hasOwnProperty"; "isPrototypeOf"; "propertyIsEnumerable";
    "toLocaleString"; "toString"; "valueOf"; "__proto__";
    "__defineGetter__"; "__defineSetter__"; "__lookupGetter__";
    "__lookupSetter__" ].

(** The property key an id is converted to in [obj[id]]. *)
Definition key (i : Id) : string :=
  match i with
  | IdNum n => JsString.of_number n
  | IdStr s => s
  end.

(** [obj[k] = v] with a string [v]: the [__proto__] setter ignores values
    that are neither objects nor [null]. *)
Definition set (o : gmap string string) (k v : string) : gmap string string :=
  if decide (k = "__proto__") then o else <[k := v]> o.

(** [obj[k]] *)
Definition get (o : gmap string string) (k : string) : Value :=
  match o !! k with
  | Some v => str v
  | None => if decide (k ∈ prototype_members) then inherited k else undefined
  end.

Definition truthy (v : Value) : bool :=
  match v with
  | undefined => false
  | str s => negb (JsString.falsy s)
  | inherited _ => true
  end.

(** The text a value contributes to [Array.prototype.join]; for the members
    of [Object.prototype] the text is the engine's rendering of a built-in. *)
Definition to_text (v : Value) : string :=
  match v with
  | undefined => ""
  | str s => s
  | inherited "__proto__" => "[object Object]"
  | inherited "constructor" => "function Object() { [native code] }"
  | inherited m => "function " ++ m ++ "() { [native code] }"
  end.

End JsObject.

(** ** The option tree *)

(** [interface TreeNode] *)
#[warnings="-register-all"]
Inductive TreeNode : Type :=
  mkTreeNode {
    id : Id;
    label : string;
    children : option (list TreeNode);
    selectionMode : option string
  }.

(** [a || b] for an optional string [a]: absent and empty are falsy. *)
Definition or_else (a : option string) (b : string) : string :=
  match a with
  | Some s => if JsString.falsy s then b else s
  | None => b
  end.

(** [function collectIds(node)] of [allDescendantIds]: the ids pushed, in
    order, by one call. *)
Fixpoint collectIds (node : TreeNode) : list Id :=
  match node with
  | mkTreeNode i _ cs _ =>
      i :: match cs with
           | Some l => List.flat_map collectIds l
           | None => []
           end
  end.

(** [isChildVisible] of [isVisible], closed over [searchLower]. *)
Fixpoint isChildVisible (searchLower : string) (node : TreeNode) : bool :=
  match node with
  | mkTreeNode _ lbl cs _ =>
      JsString.includes (JsString.toLowerCase lbl) searchLower ||
      match cs with
      | Some l => existsb (isChildVisible searchLower) l
      | None => false
      end
  end.

(** [recurse] of [optionsMap]: the writes of one call applied to [flat]. *)
Fixpoint recurse (flat : gmap string string) (node : TreeNode) : gmap string string :=
  match node with
  | mkTreeNode i lbl cs _ =>
      let flat' := JsObject.set flat (JsObject.key i) lbl in
      match cs with
      | Some l => fold_left recurse l flat'
      | None => flat'
      end
  end.

(** [hasChildren]: [node.children && node.children.length > 0] *)
Definition hasChildren (node : TreeNode) : bool :=
  match children node with
  | Some l => bool_decide (0 < length l)%nat
  | None => false
  end.

(** [allDescendantIds]: [collectIds] run over the children when there are
    any. *)
Definition allDescendantIds (node : TreeNode) : list Id :=
  if hasChildren node then
    match children node with
    | Some l => List.flat_map collectIds l
    | None => []
    end
  else [].

(** [isVisible] (the same function in both versions of TreeNode). *)
Definition isVisible (node : TreeNode) (searchTerm : string) : bool :=
  if JsString.falsy searchTerm then true
  else
    let searchLower := JsString.toLowerCase searchTerm in
    let isSelfVisible :=
      JsString.includes (JsString.toLowerCase (label node)) searchLower in
    if isSelfVisible then true
    else
      hasChildren node &&
      match children node with
      | Some l => existsb (isChildVisible searchLower) l
      | None => false
      end.

(** ** Events *)

(** Payload of the [select] event; [sel_id] is absent in the payload of a
    multiple-mode activation. *)
Record SelectPayload : Type :=
  mkSelect { sel_id : option Id; sel_ids : list Id; isSelected : bool }.

(** Payload of the [update] event. *)
Record UpdatePayload : Type :=
  mkUpdate { add : list Id; remove : list Id }.

(** What a TreeNode emits. *)
Inductive NodeEvent : Type :=
  | EmitSelect (payload : SelectPayload)
  | EmitUpdate (payload : UpdatePayload).

(** What a TreeSelect does in a handler: [emit('update:modelValue', v)] and
    [closeDropdown()]. *)
Inductive Effect : Type :=
  | EmitModelValue (v : ModelValue)
  | CloseDropdown.

(** [forEach] of the sibling loop of [handleSelect]. *)
Definition removeSiblings (self : Id) (siblings : list TreeNode) : list Id :=
  foldl (λ toRemove sibling,
           if bool_decide (id sibling ≠ self)
           then JsSet.add toRemove (id sibling) else toRemove)
        [] siblings.

(** ** TreeNode, src/unnamed/part_000 *)
Module TreeNodeV1.

(** [modelValue] is declared [Array] here. *)
Record Props : Type :=
  mkProps {
    node : TreeNode;
    modelValue : list Id;
    searchTerm : string;
    parentMode : string;
    siblings : list TreeNode
  }.

Definition currentMode (props : Props) : string :=
  or_else (selectionMode (node props)) (parentMode props).

Definition isChecked (props : Props) : bool :=
  JsArray.includes (modelValue props) (id (node props)).

Definition isIndeterminate (props : Props) : bool :=
  if negb (String.eqb (currentMode props) "multiple")
     || negb (hasChildren (node props))
     || isChecked props
  then false
  else
    let selectedChildren :=
      List.filter (JsArray.includes (modelValue props))
                  (allDescendantIds (node props)) in
    bool_decide (0 < length selectedChildren)%nat.

Definition handleSelect (props : Props) : list NodeEvent :=
  let self := id (node props) in
  let '(toAdd, toRemove) :=
    if String.eqb (currentMode props) "single" then
      if negb (isChecked props)
      then (JsSet.add [] self, removeSiblings self (siblings props))
      else ([], [])
    else
      let idsToUpdate := self :: allDescendantIds (node props) in
      let shouldSelect := negb (isChecked props) in
      if shouldSelect
      then (foldl JsSet.add [] idsToUpdate, [])
      else ([], foldl JsSet.add [] idsToUpdate)
  in
  [EmitUpdate (mkUpdate toAdd toRemove)].

(** The props a node gives each rendered child in its template. *)
Definition childProps (props : Props) (child : TreeNode) : Props :=
  {| node := child;
     modelValue := modelValue props;
     searchTerm := searchTerm props;
     parentMode := currentMode props;
     siblings := default [] (children (node props)) |}.

End TreeNodeV1.

(** ** TreeNode, src/unnamed/part_001 *)
Module TreeNodeV2.

Record Props : Type :=
  mkProps {
    node : TreeNode;
    modelValue : ModelValue;
    multiple : bool;
    searchTerm : string;
    parentMode : string;
    siblings : list TreeNode
  }.

Definition currentMode (props : Props) : string :=
  match selectionMode (node props) with
  | Some s =>
      if JsString.falsy s
      then (if multiple props then "multiple" else parentMode props)
      else s
  | None => if multiple props then "multiple" else parentMode props
  end.

Definition isChecked (props : Props) : bool :=
  match modelValue props with
  | MVArr arr => JsArray.includes arr (id (node props))
  | MVId i => bool_decide (i = id (node props))
  | MVNull => false
  end.

(** [Array.isArray(props.modelValue) ? props.modelValue : []] *)
Definition modelValueArray (v : ModelValue) : list Id :=
  match v with
  | MVArr arr => arr
  | _ => []
  end.

Definition isIndeterminate (props : Props) : bool :=
  if negb (String.eqb (currentMode props) "multiple")
     || negb (hasChildren (node props))
     || isChecked props
  then false
  else
    let selectedChildren :=
      List.filter (JsArray.includes (modelValueArray (modelValue props)))
                  (allDescendantIds (node props)) in
    bool_decide (0 < length selectedChildren)%nat
    && bool_decide (length selectedChildren
                    < length (allDescendantIds (node props)))%nat.

Definition handleSelect (props : Props) : list NodeEvent :=
  let self := id (node props) in
  if String.eqb (currentMode props) "single" then
    if negb (isChecked props) then
      [ EmitSelect (mkSelect (Some self) [self] true);
        EmitUpdate (mkUpdate (JsSet.add [] self)
                             (removeSiblings self (siblings props))) ]
    else
      [ EmitUpdate (mkUpdate [] []) ]
  else
    let idsToUpdate := self :: allDescendantIds (node props) in
    let shouldSelect := negb (isChecked props) in
    [ EmitSelect (mkSelect None idsToUpdate shouldSelect);
      EmitUpdate (if shouldSelect
                  then mkUpdate (foldl JsSet.add [] idsToUpdate) []
                  else mkUpdate [] (foldl JsSet.add [] idsToUpdate)) ].

(** The props a node gives each rendered child in its template. *)
Definition childProps (props : Props) (child : TreeNode) : Props :=
  {| node := child;
     modelValue := modelValue props;
     multiple := String.eqb (currentMode props) "multiple";
     searchTerm := searchTerm props;
     parentMode := currentMode props;
     siblings := default [] (children (node props)) |}.

End TreeNodeV2.

(** ** TreeSelect *)

(** [props.options.findIndex(option => option.id === a)]: the position of the
    first top-level option with that id, [-1] when there is none. *)
Fixpoint findIndex (options : list TreeNode) (a : Id) : Z :=
  match options with
  | [] => (-1)%Z
  | option :: rest =>
      if bool_decide (id option = a) then 0%Z
      else
        let r := findIndex rest a in
        if (r <? 0)%Z then (-1)%Z else (r + 1)%Z
  end.

(** The comparator of the sort of the selection: [indexA - indexB]. *)
Definition byOptionIndex (options : list TreeNode) (a b : Id) : Z :=
  (findIndex options a - findIndex options b)%Z.

(** [optionsMap]: [recurse] run over the options from an empty object. *)
Definition optionsMap (options : list TreeNode) : gmap string string :=
  fold_left recurse options ∅.

(** The property key of [optionsMap.value[props.modelValue]]: an array is
    converted with [Array.prototype.toString]; [null] is never looked up. *)
Definition modelValueKey (v : ModelValue) : string :=
  match v with
  | MVNull => "null"
  | MVId i => JsObject.key i
  | MVArr arr => JsString.join "," (map JsObject.key arr)
  end.

(** ** TreeSelect, src/unnamed/part_002 *)
Module TreeSelectV1.

Record Props : Type :=
  mkProps {
    options : list TreeNode;
    modelValue : ModelValue;
    multiple : bool;
    placeholder : string
  }.

Definition hasSelection (props : Props) : bool :=
  if multiple props then
    match modelValue props with
    | MVArr arr => bool_decide (0 < length arr)%nat
    | _ => false
    end
  else
    match modelValue props with
    | MVNull => false
    | _ => true
    end.

Definition selectedLabel (props : Props) : JsObject.Value :=
  if negb (hasSelection props) then JsObject.str ""
  else if multiple props then
    let count := Z.of_nat (length (TreeNodeV2.modelValueArray (modelValue props))) in
    JsObject.str (JsString.of_number count ++ " item"
                  ++ (if (1 <? count)%Z then "s" else "") ++ " selected")
  else
    let found :=
      JsObject.get (optionsMap (options props)) (modelValueKey (modelValue props)) in
    if JsObject.truthy found then found else JsObject.str "".

Definition handleNodeSelect (props : Props) (payload : SelectPayload) : list Effect :=
  if multiple props then
    let currentSelection :=
      JsSet.new (TreeNodeV2.modelValueArray (modelValue props)) in
    let currentSelection :=
      if isSelected payload
      then foldl JsSet.add currentSelection (sel_ids payload)
      else foldl JsSet.delete currentSelection (sel_ids payload) in
    [EmitModelValue (MVArr currentSelection)]
  else
    [EmitModelValue (from_option MVId MVNull (sel_id payload)); CloseDropdown].

Definition handleNodeUpdate (props : Props) (payload : UpdatePayload) : list Effect :=
  if multiple props then
    let currentSelection :=
      JsSet.new (TreeNodeV2.modelValueArray (modelValue props)) in
    let currentSelection := foldl JsSet.add currentSelection (add payload) in
    let currentSelection := foldl JsSet.delete currentSelection (remove payload) in
    [EmitModelValue (MVArr currentSelection)]
  else
    match add payload with
    | first :: _ => [EmitModelValue (MVId first); CloseDropdown]
    | [] => []
    end.

End TreeSelectV1.

(** ** TreeSelect, src/src/components/TreeSelect/TreeSelect.vue *)
Module TreeSelectV2.

Record Props : Type :=
  mkProps {
    options : list TreeNode;
    modelValue : ModelValue;
    multiple : bool;
    placeholder : string
  }.

Definition hasSelection (props : Props) : bool :=
  if multiple props then
    match modelValue props with
    | MVArr arr => bool_decide (0 < length arr)%nat
    | _ => false
    end
  else
    match modelValue props with
    | MVNull => false
    | _ => true
    end.

Definition selectedLabel (props : Props) : JsObject.Value :=
  if negb (hasSelection props) then JsObject.str ""
  else if multiple props then
    let labels :=
      map (λ i, JsObject.get (optionsMap (options props)) (JsObject.key i))
          (TreeNodeV2.modelValueArray (modelValue props)) in
    JsObject.str
      (JsString.join ", " (map JsObject.to_text (List.filter JsObject.truthy labels)))
  else
    let found :=
      JsObject.get (optionsMap (options props)) (modelValueKey (modelValue props)) in
    if JsObject.truthy found then found else JsObject.str "".

(** [Array.from(currentSelection).sort(...)] *)
Definition sortedSelection (props : Props) (currentSelection : list Id) : list Id :=
  JsArray.sort (byOptionIndex (options props)) currentSelection.

Definition handleNodeSelect (props : Props) (payload : SelectPayload) : list Effect :=
  if multiple props then
    let currentSelection :=
      JsSet.new (TreeNodeV2.modelValueArray (modelValue props)) in
    let currentSelection :=
      if isSelected payload
      then foldl JsSet.add currentSelection (sel_ids payload)
      else foldl JsSet.delete currentSelection (sel_ids payload) in
    [EmitModelValue (MVArr (sortedSelection props currentSelection))]
  else
    [EmitModelValue (from_option MVId MVNull (sel_id payload)); CloseDropdown].

(** The selection after the additions and removals of the multiple branch
    of [handleNodeUpdate], before it is sorted. *)
Definition mergedSelection (current : ModelValue) (payload : UpdatePayload) : list Id :=
  let currentSelection := JsSet.new (TreeNodeV2.modelValueArray current) in
  let currentSelection :=
    foldl (λ s i, if negb (JsSet.has s i) then JsSet.add s i else s)
          currentSelection (add payload) in
  foldl JsSet.delete currentSelection (remove payload).

Definition handleNodeUpdate (props : Props) (payload : UpdatePayload) : list Effect :=
  if multiple props then
    [EmitModelValue
       (MVArr (sortedSelection props (mergedSelection (modelValue props) payload)))]
  else
    match add payload, remove payload with
    | first :: _, _ => [EmitModelValue (MVId first); CloseDropdown]
    | [], _ :: _ => [EmitModelValue MVNull]
    | [], [] => []
    end.

(** The props the template gives each top-level TreeNode; [parentMode] and
    [siblings] are left to their defaults. *)
Definition rootProps (props : Props) (searchTerm : string) (option : TreeNode)
  : TreeNodeV2.Props :=
  {| TreeNodeV2.node := option;
     TreeNodeV2.modelValue := modelValue props;
     TreeNodeV2.multiple := multiple props;
     TreeNodeV2.searchTerm := searchTerm;
     TreeNodeV2.parentMode := "multiple";
     TreeNodeV2.siblings := [] |}.

(** [@select="handleNodeSelect" @update="handleNodeUpdate"]: the events of
    a node reach the handlers unchanged; both run on the props of the
    current render. *)
Definition dispatch (props : Props) (e : NodeEvent) : list Effect :=
  match e with
  | EmitSelect payload => handleNodeSelect props payload
  | EmitUpdate payload => handleNodeUpdate props payload
  end.

(** The effects of activating the node rendered with [nodeProps]. *)
Definition activate (props : Props) (nodeProps : TreeNodeV2.Props) : list Effect :=
  List.flat_map (dispatch props) (TreeNodeV2.handleSelect nodeProps).

End TreeSelectV2.

(** ** Reading of the specification's vocabulary *)

(** The nodes of the subtree below [node], [node] itself excluded, in
    depth-first order. *)
Fixpoint descendants (node : TreeNode) : list TreeNode :=
  match node with
  | mkTreeNode _ _ cs _ =>
      match cs with
      | Some l => List.flat_map (λ c, c :: descendants c) l
      | None => []
      end
  end.

(** A label matches a term as a case-insensitive substring. *)
Definition labelMatches (term : string) (node : TreeNode) : bool :=
  JsString.includes (JsString.toLowerCase (label node)) (JsString.toLowerCase term).

(** All ids of an option list. *)
Definition treeIds (options : list TreeNode) : list Id :=
  List.flat_map collectIds options.

(** The deltas among the events of an activation. *)
Definition emittedDeltas (events : list NodeEvent) : list UpdatePayload :=
  omap (λ e, match e with EmitUpdate p => Some p | EmitSelect _ => None end) events.

(** Two arrays hold the same set of ids. *)
Definition sameIds (a b : list Id) : Prop := ∀ x, x ∈ a ↔ x ∈ b.

(** The merge of the specification with the removals applied before the
    additions; the handlers apply the additions first. *)
Definition mergeRemoveFirst (S add remove : list Id) : list Id :=
  foldl JsSet.add (foldl JsSet.delete (JsSet.new S) remove) add.

(** The delta of a subtree toggle: everything of [self :: descendantIds] is
    added when the node was not checked, removed when it was. *)
Definition subtreeToggle (self : Id) (descendantIds : list Id) (checked : bool)
    (delta : UpdatePayload) : Prop :=
  if checked
  then add delta = [] ∧ sameIds (remove delta) (self :: descendantIds)
  else sameIds (add delta) (self :: descendantIds) ∧ remove delta = [].

(** The descendant ids of a node that the selection array holds. *)
Definition selectedDescendantIds (selection : list Id) (node : TreeNode) : list Id :=
  List.filter (JsArray.includes selection) (allDescendantIds node).

(** ** Sample data *)

Definition leaf (i : Id) (lbl : string) : TreeNode := mkTreeNode i lbl None None.

(** The tree of the end-to-end scenario of the specification. *)
Definition fruit : TreeNode :=
  mkTreeNode (IdNum 1) "Fruit"
             (Some [leaf (IdNum 2) "Apple"; leaf (IdNum 3) "Banana"]) None.

(** A group whose children are radio choices. *)
Definition sizes : TreeNode :=
  mkTreeNode (IdStr "size") "Size"
             (Some [leaf (IdStr "s") "Small"; leaf (IdStr "m") "Medium"])
             (Some "single").

(** A TreeSelect configured for single selection, with nothing selected. *)
Definition singleWidget : TreeSelectV2.Props :=
  TreeSelectV2.mkProps [fruit] MVNull false "Select...".

(** The tree [A(children: [B, C])] of the search scenario. *)
Definition abc : TreeNode :=
  mkTreeNode (IdStr "a") "A" (Some [leaf (IdStr "b") "B"; leaf (IdStr "c") "C"]) None.

(** [fruit] in multiple mode with both children selected, for either version
    of TreeNode. *)
Definition fruitChildrenSelectedV1 : TreeNodeV1.Props :=
  TreeNodeV1.mkProps fruit [IdNum 2; IdNum 3] "" "multiple" [].

Definition fruitChildrenSelectedV2 : TreeNodeV2.Props :=
  TreeNodeV2.mkProps fruit (MVArr [IdNum 2; IdNum 3]) true "" "multiple" [].

(** [fruit] in multiple mode: nothing selected (part_001), and only [fruit]
    itself selected (part_000). *)
Definition fruitUnselectedV2 : TreeNodeV2.Props :=
  TreeNodeV2.mkProps fruit (MVArr []) true "" "multiple" [].

Definition fruitSelectedV1 : TreeNodeV1.Props :=
  TreeNodeV1.mkProps fruit [IdNum 1] "" "multiple" [].

(** The child "Small" of [sizes] as its parent renders it, and the same leaf
    rendered on its own as the selected choice. *)
Definition smallUnderSizes : TreeNodeV2.Props :=
  TreeNodeV2.childProps
    (TreeNodeV2.mkProps sizes MVNull false "" "multiple" [])
    (leaf (IdStr "s") "Small").

Definition smallSelected : TreeNodeV2.Props :=
  TreeNodeV2.mkProps (leaf (IdStr "s") "Small") (MVId (IdStr "s")) false ""
                     "single" [].

(** ** Dropdown state of TreeSelect

    [isOpen] and [searchTerm] of the TreeSelect script, the same in part_002
    and in TreeSelect.vue. *)
Module Dropdown.

Record State : Type := mkState { isOpen : bool; searchTerm : string }.

Definition toggleDropdown (s : State) : State :=
  mkState (negb (isOpen s)) (searchTerm s).

Definition closeDropdown (s : State) : State := mkState false "".

(** [handleClickOutside]: [mounted] is the truthiness of [containerRef.value],
    [inside] the result of [containerRef.value.contains(event.target)]. *)
Definition handleClickOutside (mounted inside : bool) (s : State) : State :=
  if mounted && negb inside then closeDropdown s else s.

(** The state after the effects of a handler: [emit] leaves it alone. *)
Definition applyEffects (s : State) (effects : list Effect) : State :=
  foldl (λ s e, match e with
                | CloseDropdown => closeDropdown s
                | EmitModelValue _ => s
                end) s effects.

End Dropdown.

(** The model values among the effects of a handler, in emission order. *)
Definition emittedValues (effects : list Effect) : list ModelValue :=
  omap (λ e, match e with EmitModelValue v => Some v | CloseDropdown => None end)
       effects.

(** [toggleExpand] on the [isExpanded] ref of a node. *)
Definition toggleExpand (node : TreeNode) (isExpanded : bool) : bool :=
  if hasChildren node then negb isExpanded else isExpanded.

(** The rows a TreeNode template renders for [node] while every [isExpanded]
    has its initial value [true]: the node itself under [v-if="isVisible"],
    then its children under [v-if="isExpanded && hasChildren"], each with the
    same [searchTerm]. *)
Fixpoint renderedNodes (searchTerm : string) (node : TreeNode) : list TreeNode :=
  match node with
  | mkTreeNode i lbl cs m =>
      if isVisible (mkTreeNode i lbl cs m) searchTerm then
        mkTreeNode i lbl cs m ::
        (if hasChildren (mkTreeNode i lbl cs m) then
           match cs with
           | Some l => List.flat_map (renderedNodes searchTerm) l
           | None => []
           end
         else [])
      else []
  end.

(** All nodes of an option list, depth first. *)
Definition allNodes (options : list TreeNode) : list TreeNode :=
  List.flat_map (λ c, c :: descendants c) options.

(** The props of the node at the end of a path of nodes that starts at a
    top-level option: each node renders the next one as its child. *)
Definition pathProps (widget : TreeSelectV2.Props) (searchTerm : string)
    (root : TreeNode) (path : list TreeNode) : TreeNodeV2.Props :=
  foldl TreeNodeV2.childProps (TreeSelectV2.rootProps widget searchTerm root) path.

(** The last non-empty [selectionMode] along a list of nodes, or [inherited]. *)
Definition nearestMode (inherited : string) (nodes : list TreeNode) : string :=
  foldl (λ mode n, or_else (selectionMode n) mode) inherited nodes.

(** The props of the same node on a render with another model value. *)
Definition withModelValue (props : TreeNodeV2.Props) (v : ModelValue)
  : TreeNodeV2.Props :=
  {| TreeNodeV2.node := TreeNodeV2.node props;
     TreeNodeV2.modelValue := v;
     TreeNodeV2.multiple := TreeNodeV2.multiple props;
     TreeNodeV2.searchTerm := TreeNodeV2.searchTerm props;
     TreeNodeV2.parentMode := TreeNodeV2.parentMode props;
     TreeNodeV2.siblings := TreeNodeV2.siblings props |}.

(** A TreeSelect in multiple mode over [fruit] with the selection [ids]. *)
Definition fruitWidget (ids : list Id) : TreeSelectV2.Props :=
  TreeSelectV2.mkProps [fruit] (MVArr ids) true "Select...".

(** A TreeSelect in single mode over [sizes]. *)
Definition sizesWidget (v : ModelValue) : TreeSelectV2.Props :=
  TreeSelectV2.mkProps [sizes] v false "Select...".

(** A TreeSelect in multiple mode over [sizes] whose model value is the one
    id "s" instead of an array, and the child "Small" as it is rendered
    there. *)
Definition sizesMultipleScalar : TreeSelectV2.Props :=
  TreeSelectV2.mkProps [sizes] (MVId (IdStr "s")) true "Select...".

Definition smallInMultipleScalar : TreeNodeV2.Props :=
  TreeNodeV2.childProps (TreeSelectV2.rootProps sizesMultipleScalar "" sizes)
                        (leaf (IdStr "s") "Small").

(** The ids of a list with every repetition after the first left out. *)
Fixpoint firstOccurrences (l : list Id) : list Id :=
  match l with
  | [] => []
  | y :: r => y :: filter (λ z, z ≠ y) (firstOccurrences r)
  end.

(** ** Induction over the option tree

    The children of a node are a list of nodes, so the induction hypothesis
    is a [Forall] over them. *)

Section TreeNode_induction.

Variable P : TreeNode → Prop.
Hypothesis Hleaf : ∀ i lbl m, P (mkTreeNode i lbl None m).
Hypothesis Hkids :
  ∀ i lbl kids m, Forall P kids → P (mkTreeNode i lbl (Some kids) m).

Fixpoint TreeNode_nested_ind (n : TreeNode) : P n :=
  match n with
  | mkTreeNode i lbl None m => Hleaf i lbl m
  | mkTreeNode i lbl (Some kids) m =>
      Hkids i lbl kids m
        ((fix all (l : list TreeNode) : Forall P l :=
            match l with
            | [] => @List.Forall_nil _ P
            | c :: r => @List.Forall_cons _ P c r (TreeNode_nested_ind c) (all r)
            end) kids)
  end.

End TreeNode_induction.

(** ** Proof automation *)

(** Closes [x ∉ l] for a closed [x] and a closed list [l] of other values. *)
Ltac not_listed :=
  let H := fresh "H" in
  intros H; vm_compute in H;
  repeat (apply elem_of_cons in H as [H | H]; [discriminate|]);
  by apply elem_of_nil in H.

(** * Properties *)

(** ** Sets in insertion order *)

Lemma elem_of_has (s : list Id) (x : Id) : JsSet.has s x = true ↔ x ∈ s.
Proof. unfold JsSet.has. apply bool_decide_eq_true. Qed.

Lemma elem_of_includes (arr : list Id) (x : Id) :
  JsArray.includes arr x = true ↔ x ∈ arr.
Proof. unfold JsArray.includes. apply bool_decide_eq_true. Qed.

Lemma elem_of_add (s : list Id) (x y : Id) :
  x ∈ JsSet.add s y ↔ x ∈ s ∨ x = y.
Proof.
  unfold JsSet.add. destruct (JsSet.has s y) eqn:Hhas.
  - apply elem_of_has in Hhas. split; [tauto|]. intros [H | ->]; done.
  - rewrite elem_of_app, list_elem_of_singleton. tauto.
Qed.

Lemma elem_of_guarded_add (s : list Id) (x y : Id) :
  x ∈ (if negb (JsSet.has s y) then JsSet.add s y else s) ↔ x ∈ s ∨ x = y.
Proof.
  destruct (JsSet.has s y) eqn:Hhas; simpl.
  - apply elem_of_has in Hhas. split; [tauto|]. intros [H | ->]; done.
  - apply elem_of_add.
Qed.

Lemma elem_of_delete (s : list Id) (x y : Id) :
  x ∈ JsSet.delete s y ↔ x ∈ s ∧ x ≠ y.
Proof. unfold JsSet.delete. rewrite list_elem_of_filter. tauto. Qed.

Lemma elem_of_foldl_add (l s : list Id) (x : Id) :
  x ∈ foldl JsSet.add s l ↔ x ∈ s ∨ x ∈ l.
Proof.
  revert s. induction l as [|y l IH]; intros s; simpl.
  - rewrite elem_of_nil. tauto.
  - rewrite IH, elem_of_add, elem_of_cons. tauto.
Qed.

Lemma elem_of_foldl_guarded_add (l s : list Id) (x : Id) :
  x ∈ foldl (λ s i, if negb (JsSet.has s i) then JsSet.add s i else s) s l
  ↔ x ∈ s ∨ x ∈ l.
Proof.
  revert s. induction l as [|y l IH]; intros s; simpl.
  - rewrite elem_of_nil. tauto.
  - rewrite IH, elem_of_guarded_add, elem_of_cons. tauto.
Qed.

Lemma elem_of_foldl_delete (l s : list Id) (x : Id) :
  x ∈ foldl JsSet.delete s l ↔ x ∈ s ∧ x ∉ l.
Proof.
  revert s. induction l as [|y l IH]; intros s; simpl.
  - split; [intros H; split; [done | apply not_elem_of_nil] | tauto].
  - rewrite IH, elem_of_delete, not_elem_of_cons. tauto.
Qed.

Lemma elem_of_new (arr : list Id) (x : Id) : x ∈ JsSet.new arr ↔ x ∈ arr.
Proof.
  unfold JsSet.new. rewrite elem_of_foldl_add, elem_of_nil. tauto.
Qed.

Lemma NoDup_add (s : list Id) (y : Id) : NoDup s → NoDup (JsSet.add s y).
Proof.
  intros Hs. unfold JsSet.add. destruct (JsSet.has s y) eqn:Hhas; [done|].
  apply NoDup_app. repeat split; [done | | apply NoDup_singleton].
  intros x Hx Hy. apply list_elem_of_singleton in Hy as ->.
  apply elem_of_has in Hx. congruence.
Qed.

Lemma NoDup_foldl_add (l s : list Id) : NoDup s → NoDup (foldl JsSet.add s l).
Proof.
  revert s. induction l as [|y l IH]; intros s Hs; simpl; [done|].
  apply IH, NoDup_add, Hs.
Qed.

Lemma NoDup_foldl_guarded_add (l s : list Id) :
  NoDup s →
  NoDup (foldl (λ s i, if negb (JsSet.has s i) then JsSet.add s i else s) s l).
Proof.
  revert s. induction l as [|y l IH]; intros s Hs; simpl; [done|].
  apply IH. destruct (negb (JsSet.has s y)); [by apply NoDup_add | done].
Qed.

Lemma NoDup_foldl_delete (l s : list Id) :
  NoDup s → NoDup (foldl JsSet.delete s l).
Proof.
  revert s. induction l as [|y l IH]; intros s Hs; simpl; [done|].
  apply IH. unfold JsSet.delete. by apply NoDup_filter.
Qed.

Lemma NoDup_new (arr : list Id) : NoDup (JsSet.new arr).
Proof. apply NoDup_foldl_add, NoDup_nil_2. Qed.

(** ** The sort of the selection *)

Lemma insert_perm (cmp : Id → Id → Z) (x : Id) (l : list Id) :
  JsArray.insert cmp x l ≡ₚ x :: l.
Proof.
  induction l as [|y l IH]; simpl; [done|].
  destruct (cmp y x <? 0)%Z; [|done].
  rewrite IH. apply Permutation_swap.
Qed.

Lemma sort_perm (cmp : Id → Id → Z) (l : list Id) : JsArray.sort cmp l ≡ₚ l.
Proof.
  unfold JsArray.sort. induction l as [|x l IH]; simpl; [done|].
  by rewrite insert_perm, IH.
Qed.

Lemma elem_of_sort (cmp : Id → Id → Z) (l : list Id) (x : Id) :
  x ∈ JsArray.sort cmp l ↔ x ∈ l.
Proof. by rewrite sort_perm. Qed.

(** ** Merge of a delta *)

Lemma elem_of_mergedSelection (current : ModelValue) (payload : UpdatePayload) (x : Id) :
  x ∈ TreeSelectV2.mergedSelection current payload
  ↔ (x ∈ TreeNodeV2.modelValueArray current ∨ x ∈ add payload) ∧ x ∉ remove payload.
Proof.
  unfold TreeSelectV2.mergedSelection.
  rewrite elem_of_foldl_delete, elem_of_foldl_guarded_add, elem_of_new. tauto.
Qed.

(** The emitted selection lists no id twice. *)
Lemma NoDup_sortedSelection (props : TreeSelectV2.Props) (payload : UpdatePayload) :
  NoDup (TreeSelectV2.sortedSelection props
           (TreeSelectV2.mergedSelection (TreeSelectV2.modelValue props) payload)).
Proof.
  unfold TreeSelectV2.sortedSelection. rewrite sort_perm.
  unfold TreeSelectV2.mergedSelection.
  apply NoDup_foldl_delete, NoDup_foldl_guarded_add, NoDup_new.
Qed.

Lemma elem_of_mergeRemoveFirst (S add remove : list Id) (x : Id) :
  x ∈ mergeRemoveFirst S add remove ↔ (x ∈ S ∧ x ∉ remove) ∨ x ∈ add.
Proof.
  unfold mergeRemoveFirst.
  rewrite elem_of_foldl_add, elem_of_foldl_delete, elem_of_new. tauto.
Qed.

(** C3: in multiple mode, for disjoint [add] and [remove], both versions of
    [handleNodeUpdate] emit a selection that holds, as a set, exactly the ids
    of (S ∪ add) \ remove; it is the set obtained when the removals are
    applied before the additions, so the order of application is immaterial. *)
Theorem C3_merge_is_union_minus_remove
    (options : list TreeNode) (placeholder : string) (S add remove : list Id) :
  (∀ x, x ∈ add → x ∉ remove) →
  (∃ S',
      TreeSelectV2.handleNodeUpdate
        (TreeSelectV2.mkProps options (MVArr S) true placeholder)
        (mkUpdate add remove) = [EmitModelValue (MVArr S')]
      ∧ (∀ x, x ∈ S' ↔ (x ∈ S ∨ x ∈ add) ∧ x ∉ remove)
      ∧ sameIds S' (mergeRemoveFirst S add remove))
  ∧ (∃ S',
      TreeSelectV1.handleNodeUpdate
        (TreeSelectV1.mkProps options (MVArr S) true placeholder)
        (mkUpdate add remove) = [EmitModelValue (MVArr S')]
      ∧ (∀ x, x ∈ S' ↔ (x ∈ S ∨ x ∈ add) ∧ x ∉ remove)
      ∧ sameIds S' (mergeRemoveFirst S add remove)).
Proof.
  intros Hdisjoint. split.
  - eexists. split; [reflexivity|].
    assert (Hchar : ∀ x,
      x ∈ TreeSelectV2.sortedSelection
            (TreeSelectV2.mkProps options (MVArr S) true placeholder)
            (TreeSelectV2.mergedSelection (MVArr S) (mkUpdate add remove))
      ↔ (x ∈ S ∨ x ∈ add) ∧ x ∉ remove).
    { intros x. unfold TreeSelectV2.sortedSelection.
      rewrite elem_of_sort, elem_of_mergedSelection. simpl. tauto. }
    split; [exact Hchar|].
    intros x. rewrite !Hchar, elem_of_mergeRemoveFirst.
    specialize (Hdisjoint x). tauto.
  - eexists. split; [reflexivity|].
    assert (Hchar : ∀ x,
      x ∈ foldl JsSet.delete (foldl JsSet.add (JsSet.new S) add) remove
      ↔ (x ∈ S ∨ x ∈ add) ∧ x ∉ remove).
    { intros x. rewrite elem_of_foldl_delete, elem_of_foldl_add, elem_of_new. tauto. }
    split; [exact Hchar|].
    intros x. simpl. rewrite !Hchar, elem_of_mergeRemoveFirst.
    specialize (Hdisjoint x). tauto.
Qed.

Lemma C3_merge_is_union_minus_remove_witness :
  (∀ x, x ∈ [IdNum 3] → x ∉ [IdNum 2])
  ∧ (∃ S',
      TreeSelectV2.handleNodeUpdate
        (TreeSelectV2.mkProps [fruit] (MVArr [IdNum 1; IdNum 2]) true "Select...")
        (mkUpdate [IdNum 3] [IdNum 2]) = [EmitModelValue (MVArr S')]
      ∧ (∀ x, x ∈ S' ↔ (x ∈ [IdNum 1; IdNum 2] ∨ x ∈ [IdNum 3]) ∧ x ∉ [IdNum 2])
      ∧ sameIds S' (mergeRemoveFirst [IdNum 1; IdNum 2] [IdNum 3] [IdNum 2]))
  ∧ (∃ S',
      TreeSelectV1.handleNodeUpdate
        (TreeSelectV1.mkProps [fruit] (MVArr [IdNum 1; IdNum 2]) true "Select...")
        (mkUpdate [IdNum 3] [IdNum 2]) = [EmitModelValue (MVArr S')]
      ∧ (∀ x, x ∈ S' ↔ (x ∈ [IdNum 1; IdNum 2] ∨ x ∈ [IdNum 3]) ∧ x ∉ [IdNum 2])
      ∧ sameIds S' (mergeRemoveFirst [IdNum 1; IdNum 2] [IdNum 3] [IdNum 2])).
Proof.
  assert (∀ x, x ∈ [IdNum 3] → x ∉ [IdNum 2]) as Hdisjoint.
  { intros x Hadd Hremove.
    apply list_elem_of_singleton in Hadd. apply list_elem_of_singleton in Hremove.
    congruence. }
  split; [exact Hdisjoint|].
  apply (C3_merge_is_union_minus_remove [fruit] "Select..."
           [IdNum 1; IdNum 2] [IdNum 3] [IdNum 2] Hdisjoint).
Defined.

(** ** Descendants *)

Lemma flat_map_collectIds (kids : list TreeNode) :
  Forall (λ c, collectIds c = id c :: map id (descendants c)) kids →
  List.flat_map collectIds kids
  = map id (List.flat_map (λ c, c :: descendants c) kids).
Proof.
  induction 1 as [|c kids Hc _ IH]; simpl; [done|].
  rewrite Hc, IH, map_app. done.
Qed.

Lemma collectIds_descendants (n : TreeNode) :
  collectIds n = id n :: map id (descendants n).
Proof.
  induction n as [i lbl m | i lbl kids m IH] using TreeNode_nested_ind; simpl.
  - done.
  - f_equal. by apply flat_map_collectIds.
Qed.

(** [allDescendantIds] lists the ids of the descendants, in depth-first order. *)
Lemma allDescendantIds_descendants (n : TreeNode) :
  allDescendantIds n = map id (descendants n).
Proof.
  destruct n as [i lbl [kids|] m]; unfold allDescendantIds, hasChildren; simpl.
  - destruct kids as [|c kids]; [done|].
    rewrite bool_decide_eq_true_2 by (simpl; lia).
    apply flat_map_collectIds, Forall_forall. intros x _. apply collectIds_descendants.
  - done.
Qed.

Lemma hasChildren_descendants (n : TreeNode) :
  hasChildren n = false → descendants n = [].
Proof.
  destruct n as [i lbl [kids|] m]; unfold hasChildren; simpl; [|done].
  destruct kids; [done|]. rewrite bool_decide_eq_true_2 by (simpl; lia). done.
Qed.

(** ** Visibility *)

Lemma existsb_isChildVisible (searchLower : string) (kids : list TreeNode) :
  Forall (λ c, isChildVisible searchLower c = true
               ↔ ∃ d, d ∈ c :: descendants c
                      ∧ JsString.includes (JsString.toLowerCase (label d)) searchLower = true)
         kids →
  existsb (isChildVisible searchLower) kids = true
  ↔ ∃ d, d ∈ List.flat_map (λ c, c :: descendants c) kids
         ∧ JsString.includes (JsString.toLowerCase (label d)) searchLower = true.
Proof.
  induction 1 as [|c kids Hc _ IH]; simpl.
  - split; [done|]. intros (d & Hd & _). by apply elem_of_nil in Hd.
  - rewrite orb_true_iff, Hc, IH. split.
    + intros [(d & Hd & Hm) | (d & Hd & Hm)]; exists d; split; try done.
      * apply elem_of_cons in Hd as [-> | Hd]; [left|right; apply elem_of_app; by left].
      * right. apply elem_of_app. by right.
    + intros (d & Hd & Hm).
      apply elem_of_cons in Hd as [-> | Hd].
      * left. exists c. split; [left|done].
      * apply elem_of_app in Hd as [Hd | Hd].
        -- left. exists d. split; [by right|done].
        -- right. by exists d.
Qed.

Lemma isChildVisible_subtree (searchLower : string) (n : TreeNode) :
  isChildVisible searchLower n = true
  ↔ ∃ d, d ∈ n :: descendants n
         ∧ JsString.includes (JsString.toLowerCase (label d)) searchLower = true.
Proof.
  induction n as [i lbl m | i lbl kids m IH] using TreeNode_nested_ind; simpl.
  - rewrite orb_false_r. split.
    + intros H. eexists. split; [left|]; done.
    + intros (d & Hd & Hm). apply list_elem_of_singleton in Hd as ->. done.
  - rewrite orb_true_iff, (existsb_isChildVisible _ _ IH). split.
    + intros [H | (d & Hd & Hm)].
      * eexists. split; [left|]; done.
      * exists d. split; [by right|done].
    + intros (d & Hd & Hm). apply elem_of_cons in Hd as [-> | Hd].
      * by left.
      * right. by exists d.
Qed.

Lemma falsy_empty (s : string) : JsString.falsy s = true ↔ s = "".
Proof. unfold JsString.falsy. apply String.eqb_eq. Qed.

(** C7: a node is visible exactly when the search term is empty, or its own
    label contains the term as a case-insensitive substring, or the label of
    some descendant does. *)
Theorem C7_visible_iff_empty_or_self_or_descendant_match
    (node : TreeNode) (term : string) :
  isVisible node term = true
  ↔ term = ""
    ∨ labelMatches term node = true
    ∨ ∃ d, d ∈ descendants node ∧ labelMatches term d = true.
Proof.
  unfold isVisible, labelMatches.
  destruct (JsString.falsy term) eqn:Hterm.
  - apply falsy_empty in Hterm. tauto.
  - assert (term ≠ "") as Hne.
    { intros ->. by compute in Hterm. }
    destruct (JsString.includes (JsString.toLowerCase (label node))
                (JsString.toLowerCase term)) eqn:Hself; [tauto|].
    destruct node as [i lbl [kids|] m]; simpl.
    + assert (existsb (isChildVisible (JsString.toLowerCase term)) kids = true
              ↔ ∃ d, d ∈ List.flat_map (λ c, c :: descendants c) kids
                     ∧ JsString.includes (JsString.toLowerCase (label d))
                         (JsString.toLowerCase term) = true) as Hkids.
      { apply existsb_isChildVisible, Forall_forall.
        intros c _. apply isChildVisible_subtree. }
      unfold hasChildren; simpl. destruct kids as [|c kids].
      * simpl. split; [done|]. intros [? | [? | (d & Hd & _)]]; try done.
        by apply elem_of_nil in Hd.
      * rewrite bool_decide_eq_true_2 by (simpl; lia).
        rewrite andb_true_l, Hkids. split; [tauto|].
        intros [? | [? | H]]; done.
    + unfold hasChildren; simpl. split; [done|].
      intros [? | [? | (d & Hd & _)]]; try done. by apply elem_of_nil in Hd.
Qed.

(** ** Indeterminate status *)

(** In part_001 the indeterminate status of a multiple-mode node is false
    without children or when checked, and otherwise true exactly when some but
    not all descendant ids are in the selection. *)
Lemma isIndeterminate_some_but_not_all (props : TreeNodeV2.Props) :
  TreeNodeV2.currentMode props = "multiple" →
  let n := TreeNodeV2.node props in
  let selected :=
    selectedDescendantIds (TreeNodeV2.modelValueArray (TreeNodeV2.modelValue props)) n in
  (hasChildren n = false ∨ TreeNodeV2.isChecked props = true →
   TreeNodeV2.isIndeterminate props = false)
  ∧ (hasChildren n = true → TreeNodeV2.isChecked props = false →
     (TreeNodeV2.isIndeterminate props = true
      ↔ (0 < length selected ∧ length selected < length (allDescendantIds n))%nat)).
Proof.
  intros Hmode n selected. unfold TreeNodeV2.isIndeterminate.
  rewrite Hmode. change (negb ("multiple" =? "multiple")) with false. simpl.
  fold n. split.
  - intros [-> | ->]; [done|]. by rewrite orb_true_r.
  - intros -> ->. simpl. fold (selectedDescendantIds
      (TreeNodeV2.modelValueArray (TreeNodeV2.modelValue props)) n). fold selected.
    rewrite andb_true_iff, !bool_decide_eq_true. done.
Qed.

(** C1: in part_000 a multiple-mode node that is not checked is reported
    indeterminate when every one of its descendant ids is selected: the count
    is not compared with the number of descendants. *)
Theorem C1_part000_all_descendants_selected :
  TreeNodeV1.currentMode fruitChildrenSelectedV1 = "multiple"
  ∧ hasChildren fruit = true
  ∧ TreeNodeV1.isChecked fruitChildrenSelectedV1 = false
  ∧ length (selectedDescendantIds [IdNum 2; IdNum 3] fruit)
    = length (allDescendantIds fruit)
  ∧ TreeNodeV1.isIndeterminate fruitChildrenSelectedV1 = true
  ∧ TreeNodeV2.isIndeterminate fruitChildrenSelectedV2 = false.
Proof. vm_compute. repeat split. Qed.

(** ** Activation *)

Lemma toggle_targets (self : Id) (descendantIds : list Id) :
  sameIds (foldl JsSet.add [] (self :: descendantIds)) (self :: descendantIds).
Proof.
  intros x. rewrite elem_of_foldl_add, elem_of_nil. tauto.
Qed.

(** C2: a multiple-mode activation emits one delta; it adds the node's id and
    the ids of all the nodes below it and removes nothing when the node is not
    checked, and removes all of them and adds nothing when it is checked (in
    both versions of TreeNode).  The ids of the nodes below are those of
    [descendants]; for an array as model value, checked means that the array
    holds the node's id. *)
Theorem C2_multiple_activation_toggles_subtree
    (props : TreeNodeV2.Props) (props0 : TreeNodeV1.Props) :
  TreeNodeV2.currentMode props = "multiple" →
  TreeNodeV1.currentMode props0 = "multiple" →
  (∃ delta,
      emittedDeltas (TreeNodeV2.handleSelect props) = [delta]
      ∧ subtreeToggle (id (TreeNodeV2.node props))
                      (map id (descendants (TreeNodeV2.node props)))
                      (TreeNodeV2.isChecked props) delta)
  ∧ (∀ S, TreeNodeV2.modelValue props = MVArr S →
          (TreeNodeV2.isChecked props = true ↔ id (TreeNodeV2.node props) ∈ S))
  ∧ (∃ delta,
      emittedDeltas (TreeNodeV1.handleSelect props0) = [delta]
      ∧ subtreeToggle (id (TreeNodeV1.node props0))
                      (map id (descendants (TreeNodeV1.node props0)))
                      (TreeNodeV1.isChecked props0) delta)
  ∧ (TreeNodeV1.isChecked props0 = true
     ↔ id (TreeNodeV1.node props0) ∈ TreeNodeV1.modelValue props0).
Proof.
  intros Hmode Hmode0. split; [|split; [|split]].
  - rewrite <- allDescendantIds_descendants.
    unfold TreeNodeV2.handleSelect. rewrite Hmode.
    change ("multiple" =? "single") with false. cbv iota.
    destruct (TreeNodeV2.isChecked props); eexists; (split; [reflexivity|]);
      unfold subtreeToggle; cbn [negb add remove];
      split; try reflexivity; apply toggle_targets.
  - intros S HS. unfold TreeNodeV2.isChecked. rewrite HS. apply elem_of_includes.
  - rewrite <- allDescendantIds_descendants.
    unfold TreeNodeV1.handleSelect. rewrite Hmode0.
    change ("multiple" =? "single") with false. cbv iota.
    destruct (TreeNodeV1.isChecked props0); eexists; (split; [reflexivity|]);
      unfold subtreeToggle; cbn [negb add remove];
      split; try reflexivity; apply toggle_targets.
  - apply elem_of_includes.
Qed.

Lemma C2_multiple_activation_toggles_subtree_witness :
  (TreeNodeV2.currentMode fruitUnselectedV2 = "multiple"
   ∧ TreeNodeV1.currentMode fruitSelectedV1 = "multiple")
  ∧ (∃ delta,
      emittedDeltas (TreeNodeV2.handleSelect fruitUnselectedV2) = [delta]
      ∧ subtreeToggle (IdNum 1) [IdNum 2; IdNum 3] false delta)
  ∧ (∃ delta,
      emittedDeltas (TreeNodeV1.handleSelect fruitSelectedV1) = [delta]
      ∧ subtreeToggle (IdNum 1) [IdNum 2; IdNum 3] true delta).
Proof.
  split; [split; reflexivity|].
  destruct (C2_multiple_activation_toggles_subtree fruitUnselectedV2 fruitSelectedV1
              eq_refl eq_refl) as (Hnew & _ & Hold & _).
  split; [exact Hnew | exact Hold].
Defined.

(** C10: the events of an activation, and so the add and remove lists of its
    delta, are the same for any two search terms (in both versions of
    TreeNode, and for a node rendered at the top level of a TreeSelect). *)
Theorem C10_delta_independent_of_search_term
    (n : TreeNode) (v : ModelValue) (arr : list Id) (m : bool)
    (parentMode : string) (siblings : list TreeNode)
    (widget : TreeSelectV2.Props) (term1 term2 : string) :
  TreeNodeV2.handleSelect (TreeNodeV2.mkProps n v m term1 parentMode siblings)
  = TreeNodeV2.handleSelect (TreeNodeV2.mkProps n v m term2 parentMode siblings)
  ∧ TreeNodeV1.handleSelect (TreeNodeV1.mkProps n arr term1 parentMode siblings)
    = TreeNodeV1.handleSelect (TreeNodeV1.mkProps n arr term2 parentMode siblings)
  ∧ TreeSelectV2.activate widget (TreeSelectV2.rootProps widget term1 n)
    = TreeSelectV2.activate widget (TreeSelectV2.rootProps widget term2 n).
Proof. repeat split. Qed.

(** ** Single-mode activation *)

Lemma elem_of_removeSiblings_from (self : Id) (siblings : list TreeNode)
    (toRemove : list Id) (x : Id) :
  x ∈ foldl (λ toRemove sibling,
               if bool_decide (id sibling ≠ self)
               then JsSet.add toRemove (id sibling) else toRemove)
            toRemove siblings
  ↔ x ∈ toRemove ∨ (x ≠ self ∧ ∃ s, s ∈ siblings ∧ id s = x).
Proof.
  revert toRemove. induction siblings as [|s siblings IH]; intros toRemove; simpl.
  - split; [tauto|]. intros [H | (_ & s & Hs & _)]; [done|]. by apply elem_of_nil in Hs.
  - rewrite IH. case_bool_decide as Hne.
    + rewrite elem_of_add. split.
      * intros [[H | ->] | (Hx & s' & Hs' & Hid)]; [tauto| |].
        -- right. split; [done|]. exists s. split; [left|]; done.
        -- right. split; [done|]. exists s'. split; [by right|done].
      * intros [H | (Hx & s' & Hs' & Hid)]; [tauto|].
        apply elem_of_cons in Hs' as [-> | Hs']; [left; right; congruence|].
        right. split; [done|]. by exists s'.
    + split.
      * intros [H | (Hx & s' & Hs' & Hid)]; [tauto|].
        right. split; [done|]. exists s'. split; [by right|done].
      * intros [H | (Hx & s' & Hs' & Hid)]; [tauto|].
        apply elem_of_cons in Hs' as [-> | Hs'].
        -- exfalso. apply Hx. congruence.
        -- right. split; [done|]. by exists s'.
Qed.

Lemma elem_of_removeSiblings (self : Id) (siblings : list TreeNode) (x : Id) :
  x ∈ removeSiblings self siblings ↔ x ≠ self ∧ ∃ s, s ∈ siblings ∧ id s = x.
Proof.
  unfold removeSiblings. rewrite elem_of_removeSiblings_from, elem_of_nil. tauto.
Qed.

(** C4 as stated fails: a checked single-mode node still emits an [update]
    event when it is activated; and in a TreeSelect in multiple mode whose
    model value is the node's id instead of an array, this event makes the
    TreeSelect emit the empty array, under which the node is not checked any
    more. *)
Lemma C4_checked_single_node_emits_update :
  (TreeNodeV2.currentMode smallSelected = "single"
   ∧ TreeNodeV2.isChecked smallSelected = true
   ∧ TreeNodeV2.handleSelect smallSelected ≠ [])
  ∧ (TreeNodeV2.currentMode smallInMultipleScalar = "single"
     ∧ TreeNodeV2.isChecked smallInMultipleScalar = true
     ∧ TreeSelectV2.activate sizesMultipleScalar smallInMultipleScalar
       = [EmitModelValue (MVArr [])]
     ∧ TreeNodeV2.isChecked (withModelValue smallInMultipleScalar (MVArr []))
       = false).
Proof. split; repeat split. discriminate. Qed.

(** C4, amended: activating a checked single-mode node emits no [select]
    event and exactly one [update] event, with empty [add] and [remove]; a
    TreeSelect in single mode does nothing on it, and a TreeSelect in multiple
    mode emits an array that holds exactly the ids of its current array, a
    current value that is not an array counting as the empty array. *)
Theorem C4_checked_single_node_empty_delta (props : TreeNodeV2.Props) :
  TreeNodeV2.currentMode props = "single" →
  TreeNodeV2.isChecked props = true →
  TreeNodeV2.handleSelect props = [EmitUpdate (mkUpdate [] [])]
  ∧ (∀ widget, TreeSelectV2.multiple widget = false →
       TreeSelectV2.activate widget props = [])
  ∧ (∀ widget,
       TreeSelectV2.multiple widget = true →
       ∃ S', TreeSelectV2.activate widget props = [EmitModelValue (MVArr S')]
             ∧ sameIds S' (TreeNodeV2.modelValueArray (TreeSelectV2.modelValue widget))
             ∧ (∀ S, TreeSelectV2.modelValue widget = MVArr S → sameIds S' S)
             ∧ ((∀ S, TreeSelectV2.modelValue widget ≠ MVArr S) → S' = [])).
Proof.
  intros Hmode Hchecked.
  assert (TreeNodeV2.handleSelect props = [EmitUpdate (mkUpdate [] [])]) as Hevents.
  { unfold TreeNodeV2.handleSelect. rewrite Hmode, Hchecked. reflexivity. }
  split; [exact Hevents|]. split.
  - intros widget Hsingle. unfold TreeSelectV2.activate. rewrite Hevents. simpl.
    unfold TreeSelectV2.handleNodeUpdate. rewrite Hsingle. reflexivity.
  - intros widget Hmultiple. unfold TreeSelectV2.activate.
    rewrite Hevents. simpl. unfold TreeSelectV2.handleNodeUpdate.
    rewrite Hmultiple. eexists. split; [reflexivity|].
    assert (sameIds
              (TreeSelectV2.sortedSelection widget
                 (TreeSelectV2.mergedSelection (TreeSelectV2.modelValue widget)
                    (mkUpdate [] [])))
              (TreeNodeV2.modelValueArray (TreeSelectV2.modelValue widget))) as Hsame.
    { intros x. unfold TreeSelectV2.sortedSelection.
      rewrite elem_of_sort, elem_of_mergedSelection. simpl.
      rewrite elem_of_nil. tauto. }
    split; [exact Hsame|]. split.
    + intros S HS. intros x. rewrite (Hsame x), HS. reflexivity.
    + intros Hscalar.
      assert (TreeNodeV2.modelValueArray (TreeSelectV2.modelValue widget) = []) as Harr.
      { destruct (TreeSelectV2.modelValue widget) as [| |ids]; try done.
        by destruct (Hscalar ids). }
      apply elem_of_nil_inv. intros x Hx. apply Hsame in Hx.
      rewrite Harr in Hx. by apply elem_of_nil in Hx.
Qed.

Lemma C4_checked_single_node_empty_delta_witness :
  (TreeNodeV2.currentMode smallSelected = "single"
   ∧ TreeNodeV2.isChecked smallSelected = true)
  ∧ TreeNodeV2.handleSelect smallSelected = [EmitUpdate (mkUpdate [] [])].
Proof.
  split; [split; reflexivity|].
  apply (C4_checked_single_node_empty_delta smallSelected); reflexivity.
Defined.

(** The same in part_000. *)
Lemma handleSelect_V1_checked_single (props : TreeNodeV1.Props) :
  TreeNodeV1.currentMode props = "single" →
  TreeNodeV1.isChecked props = true →
  TreeNodeV1.handleSelect props = [EmitUpdate (mkUpdate [] [])].
Proof.
  intros Hmode Hchecked. unfold TreeNodeV1.handleSelect.
  rewrite Hmode, Hchecked. reflexivity.
Qed.

(** C5 as stated fails: the delta of a single-mode activation lists the ids
    of the node's siblings in [remove]. *)
Lemma C5_single_activation_removes_siblings :
  TreeNodeV2.currentMode smallUnderSizes = "single"
  ∧ TreeNodeV2.isChecked smallUnderSizes = false
  ∧ emittedDeltas (TreeNodeV2.handleSelect smallUnderSizes)
    = [mkUpdate [IdStr "s"] [IdStr "m"]]
  ∧ remove (mkUpdate [IdStr "s"] [IdStr "m"]) ≠ [].
Proof. repeat split. discriminate. Qed.

(** C5, amended: the delta of a single-mode activation of an unchecked node
    has [add = [id]], and its [remove] holds exactly the ids of the siblings
    passed to the node that differ from the node's id; it is empty when no
    siblings are passed, as for the top-level nodes of a TreeSelect. *)
Theorem C5_single_activation_delta (props : TreeNodeV2.Props) :
  TreeNodeV2.currentMode props = "single" →
  TreeNodeV2.isChecked props = false →
  ∃ delta,
    emittedDeltas (TreeNodeV2.handleSelect props) = [delta]
    ∧ add delta = [id (TreeNodeV2.node props)]
    ∧ (∀ x, x ∈ remove delta
            ↔ x ≠ id (TreeNodeV2.node props)
              ∧ ∃ s, s ∈ TreeNodeV2.siblings props ∧ id s = x)
    ∧ (TreeNodeV2.siblings props = [] → remove delta = []).
Proof.
  intros Hmode Hchecked. unfold TreeNodeV2.handleSelect.
  rewrite Hmode, Hchecked. eexists. split; [reflexivity|]. cbn [add remove].
  split; [reflexivity|]. split.
  - intros x. apply elem_of_removeSiblings.
  - intros ->. reflexivity.
Qed.

Lemma C5_single_activation_delta_witness :
  (TreeNodeV2.currentMode smallUnderSizes = "single"
   ∧ TreeNodeV2.isChecked smallUnderSizes = false)
  ∧ ∃ delta,
      emittedDeltas (TreeNodeV2.handleSelect smallUnderSizes) = [delta]
      ∧ add delta = [id (TreeNodeV2.node smallUnderSizes)]
      ∧ (∀ x, x ∈ remove delta
              ↔ x ≠ id (TreeNodeV2.node smallUnderSizes)
                ∧ ∃ s, s ∈ TreeNodeV2.siblings smallUnderSizes ∧ id s = x)
      ∧ (TreeNodeV2.siblings smallUnderSizes = [] → remove delta = []).
Proof.
  split; [split; reflexivity|].
  apply (C5_single_activation_delta smallUnderSizes); reflexivity.
Defined.

(** The same in part_000. *)
Lemma handleSelect_V1_unchecked_single (props : TreeNodeV1.Props) :
  TreeNodeV1.currentMode props = "single" →
  TreeNodeV1.isChecked props = false →
  TreeNodeV1.handleSelect props
  = [EmitUpdate (mkUpdate [id (TreeNodeV1.node props)]
                          (removeSiblings (id (TreeNodeV1.node props))
                                          (TreeNodeV1.siblings props)))].
Proof.
  intros Hmode Hchecked. unfold TreeNodeV1.handleSelect.
  rewrite Hmode, Hchecked. reflexivity.
Qed.

(** ** Effective mode *)

(** A node's own [selectionMode], when set and not empty, is its mode. *)
Lemma currentMode_override (props : TreeNodeV2.Props) (mode : string) :
  selectionMode (TreeNodeV2.node props) = Some mode → mode ≠ "" →
  TreeNodeV2.currentMode props = mode.
Proof.
  intros Hsel Hne. unfold TreeNodeV2.currentMode. rewrite Hsel.
  destruct (JsString.falsy mode) eqn:Hfalsy; [|done].
  by apply falsy_empty in Hfalsy.
Qed.

(** A child receives its parent's effective mode as inherited mode. *)
Lemma currentMode_child (props : TreeNodeV2.Props) (child : TreeNode) :
  TreeNodeV2.currentMode (TreeNodeV2.childProps props child)
  = or_else (selectionMode child) (TreeNodeV2.currentMode props).
Proof.
  assert ((if TreeNodeV2.currentMode props =? "multiple"
           then "multiple" else TreeNodeV2.currentMode props)
          = TreeNodeV2.currentMode props) as Hinherit.
  { destruct (TreeNodeV2.currentMode props =? "multiple") eqn:Heq; [|done].
    symmetry. by apply String.eqb_eq. }
  unfold TreeNodeV2.currentMode at 1, TreeNodeV2.childProps, or_else. simpl.
  destruct (selectionMode child) as [s|]; [destruct (JsString.falsy s)|]; done.
Qed.

(** The inherited mode of a top-level node is ["multiple"] whatever the
    [multiple] prop of the TreeSelect is. *)
Lemma currentMode_root (widget : TreeSelectV2.Props) (term : string) (n : TreeNode) :
  TreeNodeV2.currentMode (TreeSelectV2.rootProps widget term n)
  = or_else (selectionMode n) "multiple".
Proof.
  unfold TreeNodeV2.currentMode, TreeSelectV2.rootProps, or_else. simpl.
  destruct (selectionMode n) as [s|]; [destruct (JsString.falsy s)|];
    by destruct (TreeSelectV2.multiple widget).
Qed.

(** C6: in a TreeSelect configured for single selection, a top-level node
    without a [selectionMode] of its own gets the mode ["multiple"]: the
    [multiple] prop it receives is false, and the mode falls back to the
    default of [parentMode].  Its activation then runs the multiple-mode
    branch, whose [select] event carries no [id]. *)
Theorem C6_single_widget_root_mode_is_multiple :
  TreeSelectV2.multiple singleWidget = false
  ∧ selectionMode fruit = None
  ∧ TreeNodeV2.currentMode (TreeSelectV2.rootProps singleWidget "" fruit) = "multiple"
  ∧ TreeSelectV2.activate singleWidget (TreeSelectV2.rootProps singleWidget "" fruit)
    = [EmitModelValue MVNull; CloseDropdown;
       EmitModelValue (MVId (IdNum 1)); CloseDropdown].
Proof. vm_compute. repeat split. Qed.

(** ** Selection values that are not arrays *)

(** C8 as stated fails for the checked status: in multiple mode a value that
    is not an array is compared with the node's id, so the node whose id it is
    is checked, while no node is checked under the empty array. *)
Lemma C8_scalar_value_checks_its_node :
  TreeNodeV2.currentMode
    (TreeNodeV2.mkProps fruit (MVId (IdNum 1)) true "" "multiple" [])
  = "multiple"
  ∧ TreeNodeV2.isChecked
      (TreeNodeV2.mkProps fruit (MVId (IdNum 1)) true "" "multiple" [])
    = true
  ∧ TreeNodeV2.isChecked
      (TreeNodeV2.mkProps fruit (MVArr []) true "" "multiple" [])
    = false.
Proof. repeat split. Qed.

Lemma filter_includes_nil (l : list Id) : List.filter (JsArray.includes []) l = [].
Proof. induction l as [|x l IH]; [done|]. simpl. exact IH. Qed.

(** C8, amended: for a value that is not an array, the indeterminate status,
    [hasSelection] in multiple mode and the merges of [handleNodeUpdate] and
    [handleNodeSelect] are what they are for the empty array; the checked
    status is true exactly when the value is the node's id.  All of them are
    total functions of their inputs. *)
Theorem C8_non_array_value_as_empty_set
    (v : ModelValue) (n : TreeNode) (m : bool) (term parentMode : string)
    (siblings options : list TreeNode) (placeholder : string)
    (delta : UpdatePayload) (selection : SelectPayload) :
  (∀ arr, v ≠ MVArr arr) →
  TreeNodeV2.isIndeterminate (TreeNodeV2.mkProps n v m term parentMode siblings)
  = TreeNodeV2.isIndeterminate
      (TreeNodeV2.mkProps n (MVArr []) m term parentMode siblings)
  ∧ TreeSelectV2.hasSelection (TreeSelectV2.mkProps options v true placeholder)
    = TreeSelectV2.hasSelection (TreeSelectV2.mkProps options (MVArr []) true placeholder)
  ∧ TreeSelectV2.handleNodeUpdate (TreeSelectV2.mkProps options v true placeholder) delta
    = TreeSelectV2.handleNodeUpdate
        (TreeSelectV2.mkProps options (MVArr []) true placeholder) delta
  ∧ TreeSelectV2.handleNodeSelect
      (TreeSelectV2.mkProps options v true placeholder) selection
    = TreeSelectV2.handleNodeSelect
        (TreeSelectV2.mkProps options (MVArr []) true placeholder) selection
  ∧ TreeSelectV1.hasSelection (TreeSelectV1.mkProps options v true placeholder)
    = false
  ∧ TreeSelectV1.handleNodeUpdate (TreeSelectV1.mkProps options v true placeholder) delta
    = TreeSelectV1.handleNodeUpdate
        (TreeSelectV1.mkProps options (MVArr []) true placeholder) delta
  ∧ (TreeNodeV2.isChecked (TreeNodeV2.mkProps n v m term parentMode siblings) = true
     ↔ v = MVId (id n)).
Proof.
  intros Hscalar.
  assert (TreeNodeV2.modelValueArray v = []) as Harr.
  { destruct v; try done. by destruct (Hscalar ids). }
  split.
  { unfold TreeNodeV2.isIndeterminate. cbn [TreeNodeV2.modelValue TreeNodeV2.node].
    rewrite Harr. cbn [TreeNodeV2.modelValueArray].
    rewrite filter_includes_nil. cbn [length].
    rewrite bool_decide_eq_false_2 by lia.
    by repeat match goal with |- context [if ?b then _ else _] => destruct b end. }
  split. { destruct v; try done. by destruct (Hscalar ids). }
  split. { unfold TreeSelectV2.handleNodeUpdate, TreeSelectV2.mergedSelection.
           cbn [TreeSelectV2.multiple TreeSelectV2.modelValue]. by rewrite Harr. }
  split. { unfold TreeSelectV2.handleNodeSelect.
           cbn [TreeSelectV2.multiple TreeSelectV2.modelValue]. by rewrite Harr. }
  split. { destruct v; try done. by destruct (Hscalar ids). }
  split. { unfold TreeSelectV1.handleNodeUpdate.
           cbn [TreeSelectV1.multiple TreeSelectV1.modelValue]. by rewrite Harr. }
  unfold TreeNodeV2.isChecked. cbn [TreeNodeV2.modelValue TreeNodeV2.node].
  destruct v as [|i|ids].
  - split; discriminate.
  - rewrite bool_decide_eq_true. split; congruence.
  - by destruct (Hscalar ids).
Qed.

Lemma C8_non_array_value_as_empty_set_witness :
  (∀ arr, MVId (IdNum 2) ≠ MVArr arr)
  ∧ TreeNodeV2.isIndeterminate
      (TreeNodeV2.mkProps fruit (MVId (IdNum 2)) true "" "multiple" [])
    = TreeNodeV2.isIndeterminate
        (TreeNodeV2.mkProps fruit (MVArr []) true "" "multiple" [])
  ∧ TreeSelectV2.handleNodeUpdate
      (TreeSelectV2.mkProps [fruit] (MVId (IdNum 2)) true "Select...")
      (mkUpdate [IdNum 3] [])
    = TreeSelectV2.handleNodeUpdate
        (TreeSelectV2.mkProps [fruit] (MVArr []) true "Select...")
        (mkUpdate [IdNum 3] []).
Proof.
  assert (∀ arr, MVId (IdNum 2) ≠ MVArr arr) as Hscalar by discriminate.
  split; [exact Hscalar|].
  pose proof (C8_non_array_value_as_empty_set (MVId (IdNum 2)) fruit true ""
                "multiple" [] [fruit] "Select..." (mkUpdate [IdNum 3] [])
                (mkSelect None [] true) Hscalar) as (Hind & _ & Hupd & _).
  split; [exact Hind | exact Hupd].
Defined.

(** ** Label resolution *)

Lemma lookup_set_ne (o : gmap string string) (k k' v : string) :
  k ≠ k' → JsObject.set o k' v !! k = o !! k.
Proof.
  intros Hne. unfold JsObject.set. case_decide; [done|].
  by apply lookup_insert_ne.
Qed.

Lemma fold_recurse_lookup_other (k : string) (kids : list TreeNode) :
  Forall (λ c, ∀ flat : gmap string string,
            k ∉ map JsObject.key (collectIds c) → recurse flat c !! k = flat !! k)
         kids →
  ∀ flat : gmap string string,
    k ∉ map JsObject.key (List.flat_map collectIds kids) →
    fold_left recurse kids flat !! k = flat !! k.
Proof.
  induction 1 as [|c kids Hc _ IH]; intros flat Hk; simpl; [done|].
  simpl in Hk. rewrite map_app in Hk. apply not_elem_of_app in Hk as [Hkc Hkr].
  rewrite IH by done. by apply Hc.
Qed.

Lemma recurse_lookup_other (k : string) (n : TreeNode) :
  ∀ flat : gmap string string,
    k ∉ map JsObject.key (collectIds n) → recurse flat n !! k = flat !! k.
Proof.
  induction n as [i lbl m | i lbl kids m IH] using TreeNode_nested_ind;
    intros flat Hk; simpl in *; apply not_elem_of_cons in Hk as [Hne Hk].
  - by apply lookup_set_ne.
  - rewrite (fold_recurse_lookup_other k kids IH) by done.
    by apply lookup_set_ne.
Qed.

(** An id whose key is not the key of a node has no own property in
    [optionsMap]. *)
Lemma optionsMap_miss (options : list TreeNode) (k : string) :
  k ∉ map JsObject.key (treeIds options) → optionsMap options !! k = None.
Proof.
  intros Hk. unfold optionsMap.
  rewrite (fold_recurse_lookup_other k options); [apply lookup_empty | | exact Hk].
  apply Forall_forall. intros c _. apply recurse_lookup_other.
Qed.

Lemma optionsMap_get_miss (options : list TreeNode) (k : string) :
  k ∉ map JsObject.key (treeIds options) →
  k ∉ JsObject.prototype_members →
  JsObject.get (optionsMap options) k = JsObject.undefined.
Proof.
  intros Hk Hproto. unfold JsObject.get. rewrite optionsMap_miss by done.
  by case_decide.
Qed.

(** In multiple mode the label of TreeSelect.vue is the join of the truthy
    lookups, also for the empty selection. *)
Lemma selectedLabel_multiple_joined (options : list TreeNode) (placeholder : string)
    (selection : list Id) :
  TreeSelectV2.selectedLabel
    (TreeSelectV2.mkProps options (MVArr selection) true placeholder)
  = JsObject.str
      (JsString.join ", "
         (map JsObject.to_text
            (List.filter JsObject.truthy
               (map (λ i, JsObject.get (optionsMap options) (JsObject.key i))
                    selection)))).
Proof.
  destruct selection as [|j rest]; [reflexivity|].
  unfold TreeSelectV2.selectedLabel, TreeSelectV2.hasSelection.
  cbn [TreeSelectV2.multiple TreeSelectV2.modelValue TreeSelectV2.options
       TreeNodeV2.modelValueArray].
  rewrite bool_decide_eq_true_2 by (simpl; lia). reflexivity.
Qed.

(** C9: in single mode, for the selected id "constructor", which no node of
    the tree has, [selectedLabel] of TreeSelect.vue and of part_002 is not the
    empty string: the read of the plain object [optionsMap] finds the member
    of [Object.prototype] with that name, which is truthy, so the fallback
    [|| ''] is not taken. *)
Theorem C9_inherited_member_is_not_empty :
  (IdStr "constructor" ∉ treeIds [fruit])
  ∧ TreeSelectV2.hasSelection
      (TreeSelectV2.mkProps [fruit] (MVId (IdStr "constructor")) false "Select...")
    = true
  ∧ TreeSelectV2.selectedLabel
      (TreeSelectV2.mkProps [fruit] (MVId (IdStr "constructor")) false "Select...")
    = JsObject.inherited "constructor"
  ∧ TreeSelectV2.selectedLabel
      (TreeSelectV2.mkProps [fruit] (MVId (IdStr "constructor")) false "Select...")
    ≠ JsObject.str ""
  ∧ TreeSelectV1.selectedLabel
      (TreeSelectV1.mkProps [fruit] (MVId (IdStr "constructor")) false "Select...")
    ≠ JsObject.str "".
Proof.
  split; [not_listed|].
  vm_compute. repeat split; discriminate.
Qed.

(** A string id resolves to the label of the node whose number id has the
    same digits: property keys are strings. *)
Lemma selectedLabel_number_key_collision :
  (IdStr "2" ∉ treeIds [fruit])
  ∧ TreeSelectV2.selectedLabel
      (TreeSelectV2.mkProps [fruit] (MVId (IdStr "2")) false "Select...")
    = JsObject.str "Apple".
Proof.
  split.
  - not_listed.
  - vm_compute. reflexivity.
Qed.

(** X22: a selected id whose property key is neither the key of a node of the
    option tree nor the name of a member of [Object.prototype] resolves to the
    empty string in single mode; in multiple mode TreeSelect.vue leaves it out
    of the joined label, and part_002 shows the number of selected ids, in
    which it is counted. *)
Theorem X22_unknown_id_resolves_to_nothing
    (options : list TreeNode) (placeholder : string) (i : Id)
    (before after : list Id) :
  JsObject.key i ∉ map JsObject.key (treeIds options) →
  JsObject.key i ∉ JsObject.prototype_members →
  TreeSelectV2.selectedLabel (TreeSelectV2.mkProps options (MVId i) false placeholder)
  = JsObject.str ""
  ∧ TreeSelectV1.selectedLabel (TreeSelectV1.mkProps options (MVId i) false placeholder)
    = JsObject.str ""
  ∧ TreeSelectV2.selectedLabel
      (TreeSelectV2.mkProps options (MVArr (before ++ i :: after)) true placeholder)
    = TreeSelectV2.selectedLabel
        (TreeSelectV2.mkProps options (MVArr (before ++ after)) true placeholder)
  ∧ TreeSelectV1.selectedLabel
      (TreeSelectV1.mkProps options (MVArr (before ++ i :: after)) true placeholder)
    = JsObject.str
        (JsString.of_number (Z.of_nat (length (before ++ i :: after)))
         ++ " item"
         ++ (if (1 <? Z.of_nat (length (before ++ i :: after)))%Z then "s" else "")
         ++ " selected").
Proof.
  intros Hkey Hproto.
  pose proof (optionsMap_get_miss options (JsObject.key i) Hkey Hproto) as Hmiss.
  assert (bool_decide (0 < length (before ++ i :: after)%list)%nat = true) as Hsome.
  { apply bool_decide_eq_true. rewrite length_app. simpl. lia. }
  split; [|split; [|split]].
  - unfold TreeSelectV2.selectedLabel. simpl. by rewrite Hmiss.
  - unfold TreeSelectV1.selectedLabel. simpl. by rewrite Hmiss.
  - rewrite !selectedLabel_multiple_joined.
    rewrite !map_app, !List.filter_app. cbn [map List.filter].
    rewrite Hmiss. reflexivity.
  - unfold TreeSelectV1.selectedLabel, TreeSelectV1.hasSelection.
    cbn [TreeSelectV1.multiple TreeSelectV1.modelValue TreeNodeV2.modelValueArray].
    by rewrite Hsome.
Qed.

Lemma X22_unknown_id_resolves_to_nothing_witness :
  ((JsObject.key (IdNum 7) ∉ map JsObject.key (treeIds [fruit]))
   ∧ (JsObject.key (IdNum 7) ∉ JsObject.prototype_members))
  ∧ TreeSelectV2.selectedLabel
      (TreeSelectV2.mkProps [fruit] (MVId (IdNum 7)) false "Select...")
    = JsObject.str ""
  ∧ TreeSelectV2.selectedLabel
      (TreeSelectV2.mkProps [fruit] (MVArr ([IdNum 2] ++ IdNum 7 :: [IdNum 3]))
                            true "Select...")
    = JsObject.str "Apple, Banana".
Proof.
  assert (JsObject.key (IdNum 7) ∉ map JsObject.key (treeIds [fruit])) as Hkey.
  { not_listed. }
  assert (JsObject.key (IdNum 7) ∉ JsObject.prototype_members) as Hproto.
  { not_listed. }
  split; [split; assumption|].
  pose proof (X22_unknown_id_resolves_to_nothing [fruit] "Select..." (IdNum 7)
                [IdNum 2] [IdNum 3] Hkey Hproto) as (Hsingle & _ & Hmulti & _).
  split; [exact Hsingle|].
  rewrite Hmulti. vm_compute. reflexivity.
Defined.

(** ** The scenarios of the specification *)

(** Search term "b" on [A(children: [B, C])]: B and A are visible, C is not. *)
Example search_scenario :
  isVisible (leaf (IdStr "b") "B") "b" = true
  ∧ isVisible abc "b" = true
  ∧ labelMatches "b" abc = false
  ∧ isVisible (leaf (IdStr "c") "C") "b" = false.
Proof. repeat split. Qed.

(** Click "Fruit" with nothing selected, then click "Apple": the first delta
    adds 1, 2 and 3, the second removes 2 only, and node 1, whose id stays in
    the selection, is still checked and not indeterminate. *)
Example fruit_scenario :
  emittedDeltas (TreeNodeV2.handleSelect fruitUnselectedV2)
  = [mkUpdate [IdNum 1; IdNum 2; IdNum 3] []]
  ∧ TreeSelectV2.handleNodeUpdate
      (TreeSelectV2.mkProps [fruit] (MVArr []) true "Select...")
      (mkUpdate [IdNum 1; IdNum 2; IdNum 3] [])
    = [EmitModelValue (MVArr [IdNum 2; IdNum 3; IdNum 1])]
  ∧ emittedDeltas
      (TreeNodeV2.handleSelect
         (TreeNodeV2.childProps
            (TreeNodeV2.mkProps fruit (MVArr [IdNum 2; IdNum 3; IdNum 1]) true ""
                                "multiple" [])
            (leaf (IdNum 2) "Apple")))
    = [mkUpdate [] [IdNum 2]]
  ∧ TreeSelectV2.handleNodeUpdate
      (TreeSelectV2.mkProps [fruit] (MVArr [IdNum 2; IdNum 3; IdNum 1]) true "Select...")
      (mkUpdate [] [IdNum 2])
    = [EmitModelValue (MVArr [IdNum 3; IdNum 1])]
  ∧ TreeNodeV2.isChecked
      (TreeNodeV2.mkProps fruit (MVArr [IdNum 3; IdNum 1]) true "" "multiple" [])
    = true
  ∧ TreeNodeV2.isIndeterminate
      (TreeNodeV2.mkProps fruit (MVArr [IdNum 3; IdNum 1]) true "" "multiple" [])
    = false.
Proof. vm_compute. repeat split. Qed.

(** * Further properties of the components *)

(** ** Sets: the guard, repeated elements and deletion *)

Lemma guarded_add (s : list Id) (i : Id) :
  (if negb (JsSet.has s i) then JsSet.add s i else s) = JsSet.add s i.
Proof. unfold JsSet.add. by destruct (JsSet.has s i). Qed.

Lemma foldl_guarded_add (l s : list Id) :
  foldl (λ s i, if negb (JsSet.has s i) then JsSet.add s i else s) s l
  = foldl JsSet.add s l.
Proof.
  revert s. induction l as [|y l IH]; intros s; simpl; [done|].
  by rewrite guarded_add, IH.
Qed.

Lemma add_present (s : list Id) (y : Id) : y ∈ s → JsSet.add s y = s.
Proof.
  intros Hy. unfold JsSet.add. apply elem_of_has in Hy. by rewrite Hy.
Qed.

Lemma add_absent (s : list Id) (y : Id) :
  y ∉ s → JsSet.add s y = (s ++ [y])%list.
Proof.
  intros Hy. unfold JsSet.add. destruct (JsSet.has s y) eqn:Hhas; [|done].
  by apply elem_of_has in Hhas.
Qed.

(** Adding the elements of a set built from [l] is adding the elements of
    [l]: repetitions in [l] add nothing. *)
Lemma foldl_add_foldl_add (l t s : list Id) :
  foldl JsSet.add s (foldl JsSet.add t l) = foldl JsSet.add (foldl JsSet.add s t) l.
Proof.
  revert t s. induction l as [|y l IH]; intros t s; simpl; [done|].
  rewrite IH. f_equal. destruct (decide (y ∈ t)) as [Hy | Hy].
  - rewrite (add_present t y Hy). symmetry. apply add_present.
    apply elem_of_foldl_add. by right.
  - rewrite (add_absent t y Hy). by rewrite foldl_app.
Qed.

Lemma foldl_delete_filter (l s : list Id) :
  foldl JsSet.delete s l = filter (λ y, y ∉ l) s.
Proof.
  revert s. induction l as [|x l IH]; intros s; simpl.
  - induction s as [|y s IHs]; [done|].
    rewrite filter_cons_True by apply not_elem_of_nil. by rewrite <- IHs.
  - rewrite IH. unfold JsSet.delete. rewrite list_filter_filter.
    apply list_filter_iff. intros y. rewrite not_elem_of_cons. tauto.
Qed.

Lemma foldl_delete_foldl_add (l s : list Id) :
  foldl JsSet.delete s (foldl JsSet.add [] l) = foldl JsSet.delete s l.
Proof.
  rewrite !foldl_delete_filter. apply list_filter_iff. intros y.
  rewrite elem_of_foldl_add, elem_of_nil. tauto.
Qed.

Lemma new_NoDup (l : list Id) : NoDup l → JsSet.new l = l.
Proof.
  unfold JsSet.new. intros Hl.
  enough (∀ s, (∀ x, x ∈ s → x ∉ l) → foldl JsSet.add s l = (s ++ l)%list) as H.
  { apply (H []). intros x Hx. by apply elem_of_nil in Hx. }
  induction Hl as [|y l Hy Hl IH]; intros s Hs; simpl.
  - by rewrite app_nil_r.
  - rewrite add_absent.
    + rewrite IH; [by rewrite <- app_assoc|].
      intros x Hx. apply elem_of_app in Hx as [Hx | Hx].
      * specialize (Hs x Hx). by apply not_elem_of_cons in Hs as [_ ?].
      * apply list_elem_of_singleton in Hx as ->. done.
    + intros Hin. apply (Hs y Hin). by left.
Qed.

(** ** One activation in a TreeSelect in multiple mode *)

(** The value the multiple branch of [handleNodeUpdate] emits. *)
Lemma handleNodeUpdate_multiple (widget : TreeSelectV2.Props) (payload : UpdatePayload) :
  TreeSelectV2.multiple widget = true →
  TreeSelectV2.handleNodeUpdate widget payload
  = [EmitModelValue
       (MVArr (TreeSelectV2.sortedSelection widget
                 (TreeSelectV2.mergedSelection (TreeSelectV2.modelValue widget) payload)))].
Proof. intros Hm. unfold TreeSelectV2.handleNodeUpdate. by rewrite Hm. Qed.

(** The [select] and the [update] event of a multiple-mode activation make
    the handlers compute the same selection. *)
Lemma select_and_update_agree (widget : TreeSelectV2.Props) (ids : list Id)
    (shouldSelect : bool) :
  TreeSelectV2.multiple widget = true →
  TreeSelectV2.handleNodeSelect widget (mkSelect None ids shouldSelect)
  = TreeSelectV2.handleNodeUpdate widget
      (if shouldSelect then mkUpdate (foldl JsSet.add [] ids) []
       else mkUpdate [] (foldl JsSet.add [] ids)).
Proof.
  intros Hm. rewrite handleNodeUpdate_multiple by done.
  unfold TreeSelectV2.handleNodeSelect, TreeSelectV2.mergedSelection.
  rewrite Hm. cbn [isSelected sel_ids]. do 3 f_equal.
  destruct shouldSelect; cbn [add remove foldl].
  - rewrite foldl_guarded_add, foldl_add_foldl_add. reflexivity.
  - rewrite foldl_delete_foldl_add. reflexivity.
Qed.

(** X1: in a TreeSelect in multiple mode, the two events of the activation of
    a node that is not in single mode make the TreeSelect emit the same array
    twice, and never close the dropdown. *)
Theorem X1_multiple_activation_emits_one_value_twice
    (widget : TreeSelectV2.Props) (props : TreeNodeV2.Props) :
  TreeSelectV2.multiple widget = true →
  TreeNodeV2.currentMode props ≠ "single" →
  ∃ S', TreeSelectV2.activate widget props
        = [EmitModelValue (MVArr S'); EmitModelValue (MVArr S')].
Proof.
  intros Hm Hmode. unfold TreeSelectV2.activate, TreeNodeV2.handleSelect.
  destruct (TreeNodeV2.currentMode props =? "single") eqn:Heq.
  { by apply String.eqb_eq in Heq. }
  cbn [List.flat_map TreeSelectV2.dispatch app].
  rewrite select_and_update_agree by done.
  rewrite handleNodeUpdate_multiple by done.
  eexists. reflexivity.
Qed.

Lemma X1_multiple_activation_emits_one_value_twice_witness :
  (TreeSelectV2.multiple (fruitWidget []) = true
   ∧ TreeNodeV2.currentMode fruitUnselectedV2 ≠ "single")
  ∧ ∃ S', TreeSelectV2.activate (fruitWidget []) fruitUnselectedV2
          = [EmitModelValue (MVArr S'); EmitModelValue (MVArr S')].
Proof.
  assert (TreeNodeV2.currentMode fruitUnselectedV2 ≠ "single") as Hmode
    by discriminate.
  split; [split; [reflexivity | exact Hmode]|].
  exact (X1_multiple_activation_emits_one_value_twice
           (fruitWidget []) fruitUnselectedV2 eq_refl Hmode).
Defined.

Lemma activate_multiple (widget : TreeSelectV2.Props) (props : TreeNodeV2.Props) :
  TreeSelectV2.multiple widget = true →
  TreeNodeV2.currentMode props ≠ "single" →
  let targets := id (TreeNodeV2.node props) :: allDescendantIds (TreeNodeV2.node props) in
  let delta := if negb (TreeNodeV2.isChecked props)
               then mkUpdate (foldl JsSet.add [] targets) []
               else mkUpdate [] (foldl JsSet.add [] targets) in
  let S' := TreeSelectV2.sortedSelection widget
              (TreeSelectV2.mergedSelection (TreeSelectV2.modelValue widget) delta) in
  TreeSelectV2.activate widget props
  = [EmitModelValue (MVArr S'); EmitModelValue (MVArr S')].
Proof.
  intros Hm Hmode targets delta S'.
  unfold TreeSelectV2.activate, TreeNodeV2.handleSelect.
  destruct (TreeNodeV2.currentMode props =? "single") eqn:Heq.
  { by apply String.eqb_eq in Heq. }
  cbn [List.flat_map TreeSelectV2.dispatch app].
  rewrite select_and_update_agree by done.
  rewrite handleNodeUpdate_multiple by done.
  reflexivity.
Qed.

Lemma filter_none (p : Id → bool) (l : list Id) :
  (∀ x, x ∈ l → p x = false) → List.filter p l = [].
Proof.
  induction l as [|y l IH]; intros Hp; simpl; [done|].
  rewrite (Hp y) by (by left). apply IH. intros x Hx. apply Hp. by right.
Qed.

(** X2: activating a multiple-mode node in a TreeSelect in multiple mode is a
    strict toggle of its subtree, whatever the model values are.  In the array
    emitted, the node's id and the ids of all the nodes below it are present
    exactly when the node was not checked before; every other id is present
    exactly when the current array of the TreeSelect holds it, a current value
    that is not an array counting as empty; under the emitted array the
    node's checked status is the opposite of what it was, and the node is not
    indeterminate. *)
Theorem X2_activation_toggles_subtree_in_selection
    (widget : TreeSelectV2.Props) (props : TreeNodeV2.Props) :
  TreeSelectV2.multiple widget = true →
  TreeNodeV2.currentMode props = "multiple" →
  ∃ S',
    emittedValues (TreeSelectV2.activate widget props) = [MVArr S'; MVArr S']
    ∧ (∀ x, x ∈ id (TreeNodeV2.node props)
                :: map id (descendants (TreeNodeV2.node props)) →
            (x ∈ S' ↔ TreeNodeV2.isChecked props = false))
    ∧ (∀ x, x ∉ id (TreeNodeV2.node props)
                :: map id (descendants (TreeNodeV2.node props)) →
            (x ∈ S' ↔ x ∈ TreeNodeV2.modelValueArray (TreeSelectV2.modelValue widget)))
    ∧ TreeNodeV2.isChecked (withModelValue props (MVArr S'))
      = negb (TreeNodeV2.isChecked props)
    ∧ TreeNodeV2.isIndeterminate (withModelValue props (MVArr S')) = false.
Proof.
  intros Hm Hmode.
  assert (TreeNodeV2.currentMode props ≠ "single") as Hns by (rewrite Hmode; discriminate).
  rewrite (activate_multiple widget props Hm Hns). cbv zeta.
  rewrite <- allDescendantIds_descendants.
  set (S := TreeNodeV2.modelValueArray (TreeSelectV2.modelValue widget)).
  set (targets := id (TreeNodeV2.node props) :: allDescendantIds (TreeNodeV2.node props)).
  set (delta := if negb (TreeNodeV2.isChecked props)
                then mkUpdate (foldl JsSet.add [] targets) []
                else mkUpdate [] (foldl JsSet.add [] targets)).
  set (S' := TreeSelectV2.sortedSelection widget
               (TreeSelectV2.mergedSelection (TreeSelectV2.modelValue widget) delta)).
  assert (∀ x, x ∈ S' ↔
               if TreeNodeV2.isChecked props then x ∈ S ∧ x ∉ targets
               else x ∈ S ∨ x ∈ targets) as Hchar.
  { intros x. unfold S', TreeSelectV2.sortedSelection.
    rewrite elem_of_sort, elem_of_mergedSelection. fold S. unfold delta.
    destruct (TreeNodeV2.isChecked props); cbn [negb add remove];
      rewrite elem_of_foldl_add, !elem_of_nil; [tauto|].
    split; [tauto|]. intros H. split; [tauto|]. tauto. }
  assert (TreeNodeV2.isChecked (withModelValue props (MVArr S'))
          = negb (TreeNodeV2.isChecked props)) as Hflip.
  { unfold TreeNodeV2.isChecked at 1. cbn [withModelValue TreeNodeV2.modelValue TreeNodeV2.node].
    destruct (TreeNodeV2.isChecked props) eqn:Hc; cbn [negb].
    - apply not_true_is_false. rewrite elem_of_includes, Hchar.
      intros [_ Hn]. apply Hn. by left.
    - apply elem_of_includes. rewrite Hchar. right. by left. }
  exists S'. split; [reflexivity|]. split; [|split; [|split; [exact Hflip|]]].
  - intros x Hx. rewrite Hchar. destruct (TreeNodeV2.isChecked props).
    + split; [tauto | discriminate].
    + tauto.
  - intros x Hx. rewrite Hchar. destruct (TreeNodeV2.isChecked props); tauto.
  - unfold TreeNodeV2.isIndeterminate. rewrite Hflip.
    destruct (TreeNodeV2.isChecked props) eqn:Hc; cbn [negb].
    + cbn [withModelValue TreeNodeV2.modelValue TreeNodeV2.node TreeNodeV2.modelValueArray].
      rewrite filter_none.
      * cbn [length]. rewrite (bool_decide_eq_false_2 (0 < 0)%nat) by lia.
        by repeat match goal with |- context [if ?b then _ else _] => destruct b end.
      * intros x Hx. apply not_true_is_false. rewrite elem_of_includes, Hchar.
        intros [_ Hn]. apply Hn. by right.
    + by rewrite !orb_true_r.
Qed.

Lemma X2_activation_toggles_subtree_in_selection_witness :
  (TreeSelectV2.multiple (fruitWidget []) = true
   ∧ TreeNodeV2.currentMode fruitUnselectedV2 = "multiple")
  ∧ ∃ S',
      emittedValues (TreeSelectV2.activate (fruitWidget []) fruitUnselectedV2)
      = [MVArr S'; MVArr S']
      ∧ (∀ x, x ∈ [IdNum 1; IdNum 2; IdNum 3] → (x ∈ S' ↔ false = false))
      ∧ TreeNodeV2.isChecked (withModelValue fruitUnselectedV2 (MVArr S'))
        = negb (TreeNodeV2.isChecked fruitUnselectedV2).
Proof.
  split; [repeat split|].
  destruct (X2_activation_toggles_subtree_in_selection
              (fruitWidget []) fruitUnselectedV2 eq_refl eq_refl)
    as (S' & Hvalues & Htargets & _ & Hflip & _).
  exists S'. split; [exact Hvalues|]. split; [exact Htargets | exact Hflip].
Defined.

(** ** The emitted selection *)

(** X3: in multiple mode every array a TreeSelect emits lists no id twice,
    whatever repetitions the current model value or the payload contain (both
    handlers of TreeSelect.vue and of part_002). *)
Theorem X3_emitted_selection_has_no_duplicates
    (options : list TreeNode) (v : ModelValue) (placeholder : string)
    (delta : UpdatePayload) (selection : SelectPayload) :
  (∃ S', TreeSelectV2.handleNodeUpdate
           (TreeSelectV2.mkProps options v true placeholder) delta
         = [EmitModelValue (MVArr S')] ∧ NoDup S')
  ∧ (∃ S', TreeSelectV2.handleNodeSelect
             (TreeSelectV2.mkProps options v true placeholder) selection
           = [EmitModelValue (MVArr S')] ∧ NoDup S')
  ∧ (∃ S', TreeSelectV1.handleNodeUpdate
             (TreeSelectV1.mkProps options v true placeholder) delta
           = [EmitModelValue (MVArr S')] ∧ NoDup S')
  ∧ (∃ S', TreeSelectV1.handleNodeSelect
             (TreeSelectV1.mkProps options v true placeholder) selection
           = [EmitModelValue (MVArr S')] ∧ NoDup S').
Proof.
  split; [|split; [|split]].
  - eexists. split; [reflexivity|].
    apply (NoDup_sortedSelection (TreeSelectV2.mkProps options v true placeholder)).
  - eexists. split; [reflexivity|].
    unfold TreeSelectV2.sortedSelection. rewrite sort_perm.
    destruct (isSelected selection).
    + apply NoDup_foldl_add, NoDup_new.
    + apply NoDup_foldl_delete, NoDup_new.
  - eexists. split; [reflexivity|].
    apply NoDup_foldl_delete, NoDup_foldl_add, NoDup_new.
  - eexists. split; [reflexivity|]. destruct (isSelected selection).
    + apply NoDup_foldl_add, NoDup_new.
    + apply NoDup_foldl_delete, NoDup_new.
Qed.

(** ** [findIndex] and the order of the emitted selection *)

Lemma findIndex_lower_bound (options : list TreeNode) (a : Id) :
  (-1 ≤ findIndex options a)%Z.
Proof.
  induction options as [|o options IH]; simpl; [lia|].
  case_bool_decide; [lia|]. destruct (findIndex options a <? 0)%Z eqn:Hneg; lia.
Qed.

(** X4: [findIndex] is [-1] exactly when no top-level option has the id;
    otherwise it is the position of the first top-level option with that id,
    so it is below the number of options.  Ids of nested nodes are not
    looked for. *)
Theorem X4_findIndex_first_top_level_position (options : list TreeNode) (a : Id) :
  (a ∉ map id options → findIndex options a = (-1)%Z)
  ∧ (a ∈ map id options →
     ∃ n : nat,
       findIndex options a = Z.of_nat n
       ∧ (n < length options)%nat
       ∧ id <$> (options !! n) = Some a
       ∧ ∀ m : nat, (m < n)%nat → id <$> (options !! m) ≠ Some a).
Proof.
  induction options as [|o options [IHno IHyes]]; simpl.
  - split; [done|]. intros H. by apply elem_of_nil in H.
  - split.
    + intros Hno. apply not_elem_of_cons in Hno as [Hne Hno].
      rewrite bool_decide_eq_false_2 by congruence.
      rewrite (IHno Hno). reflexivity.
    + intros Hyes. case_bool_decide as Hid.
      * exists 0%nat. repeat split; [lia | by rewrite <- Hid | intros m Hm; lia].
      * apply elem_of_cons in Hyes as [Heq | Hyes]; [congruence|].
        destruct (IHyes Hyes) as (n & Hn & Hlen & Hat & Hfirst).
        rewrite Hn. destruct (Z.of_nat n <? 0)%Z eqn:Hneg; [lia|].
        exists (Datatypes.S n). repeat split; [lia | lia | exact Hat |].
        intros [|m] Hm; simpl.
        -- intros [=]. congruence.
        -- apply Hfirst. lia.
Qed.

Lemma insert_sorted (options : list TreeNode) (x : Id) (l : list Id) :
  StronglySorted (λ a b, (findIndex options a ≤ findIndex options b)%Z) l →
  StronglySorted (λ a b, (findIndex options a ≤ findIndex options b)%Z)
                 (JsArray.insert (byOptionIndex options) x l).
Proof.
  induction 1 as [|y r Hr IH Hy]; simpl.
  - repeat constructor.
  - unfold byOptionIndex at 1.
    destruct (findIndex options y - findIndex options x <? 0)%Z eqn:Hlt.
    + constructor; [exact IH|].
      rewrite (insert_perm (byOptionIndex options) x r).
      constructor; [lia | exact Hy].
    + constructor; [by constructor|].
      constructor; [lia|].
      eapply Forall_impl; [exact Hy|]. intros z Hz. simpl in *. lia.
Qed.

Lemma insert_stable (options : list TreeNode) (k : Z) (x : Id) (l : list Id) :
  filter (λ a, findIndex options a = k) (JsArray.insert (byOptionIndex options) x l)
  = filter (λ a, findIndex options a = k) (x :: l).
Proof.
  induction l as [|y r IH]; simpl; [done|].
  unfold byOptionIndex at 1.
  destruct (findIndex options y - findIndex options x <? 0)%Z eqn:Hlt; [|done].
  rewrite (filter_cons _ y), IH, !(filter_cons _ x), (filter_cons _ y).
  repeat case_decide; try done. lia.
Qed.

(** X5: the array TreeSelect.vue emits is ordered by the position of each id
    among the top-level options, the ids that are not top-level ([-1]) first;
    the sort is stable, so ids with the same position, in particular all
    nested ids, keep the order they had in the set. *)
Theorem X5_emitted_selection_in_option_order
    (widget : TreeSelectV2.Props) (currentSelection : list Id) (k : Z) :
  StronglySorted
    (λ a b, (findIndex (TreeSelectV2.options widget) a
             ≤ findIndex (TreeSelectV2.options widget) b)%Z)
    (TreeSelectV2.sortedSelection widget currentSelection)
  ∧ filter (λ a, findIndex (TreeSelectV2.options widget) a = k)
           (TreeSelectV2.sortedSelection widget currentSelection)
    = filter (λ a, findIndex (TreeSelectV2.options widget) a = k) currentSelection.
Proof.
  unfold TreeSelectV2.sortedSelection, JsArray.sort. split.
  - induction currentSelection as [|x l IH]; simpl; [constructor|].
    by apply insert_sorted.
  - induction currentSelection as [|x l IH]; simpl; [done|].
    rewrite insert_stable, !(filter_cons _ x), IH. done.
Qed.

(** ** [optionsMap]: what is written can be read *)

Lemma lookup_set_eq (o : gmap string string) (k v : string) :
  k ≠ "__proto__" → JsObject.set o k v !! k = Some v.
Proof.
  intros Hk. unfold JsObject.set. case_decide; [done|]. apply lookup_insert_eq.
Qed.

Lemma fold_recurse_other (k : string) (kids : list TreeNode)
    (flat : gmap string string) :
  k ∉ map JsObject.key (List.flat_map collectIds kids) →
  fold_left recurse kids flat !! k = flat !! k.
Proof.
  apply fold_recurse_lookup_other, Forall_forall.
  intros c _. apply recurse_lookup_other.
Qed.

Lemma key_in_collectIds (c n : TreeNode) :
  n ∈ c :: descendants c → JsObject.key (id n) ∈ map JsObject.key (collectIds c).
Proof.
  intros Hn. rewrite collectIds_descendants.
  apply list_elem_of_In, in_map, list_elem_of_In.
  apply elem_of_cons in Hn as [-> | Hn]; [by left|].
  right. by apply list_elem_of_In, in_map, list_elem_of_In.
Qed.

Lemma fold_recurse_lookup (kids : list TreeNode) :
  Forall (λ c, ∀ (flat : gmap string string) (n : TreeNode),
            n ∈ c :: descendants c →
            NoDup (map JsObject.key (collectIds c)) →
            JsObject.key (id n) ≠ "__proto__" →
            recurse flat c !! JsObject.key (id n) = Some (label n)) kids →
  ∀ (flat : gmap string string) (n : TreeNode),
    n ∈ List.flat_map (λ c, c :: descendants c) kids →
    NoDup (map JsObject.key (List.flat_map collectIds kids)) →
    JsObject.key (id n) ≠ "__proto__" →
    fold_left recurse kids flat !! JsObject.key (id n) = Some (label n).
Proof.
  induction 1 as [|c kids Hc _ IH]; intros flat n Hn Hnodup Hproto; simpl in *.
  - by apply elem_of_nil in Hn.
  - rewrite map_app in Hnodup. apply NoDup_app in Hnodup as (Hc1 & Hdisj & Hrest).
    change (n :: descendants n) with ([n] ++ descendants n)%list in Hn.
    apply elem_of_cons in Hn as [-> | Hn];
      [|apply elem_of_app in Hn as [Hn | Hn]].
    + rewrite fold_recurse_other.
      * apply Hc; [by left | done | done].
      * apply Hdisj, key_in_collectIds. by left.
    + rewrite fold_recurse_other.
      * apply Hc; [by right | done | done].
      * apply Hdisj, key_in_collectIds. by right.
    + by apply IH.
Qed.

Lemma recurse_lookup (c : TreeNode) :
  ∀ (flat : gmap string string) (n : TreeNode),
    n ∈ c :: descendants c →
    NoDup (map JsObject.key (collectIds c)) →
    JsObject.key (id n) ≠ "__proto__" →
    recurse flat c !! JsObject.key (id n) = Some (label n).
Proof.
  induction c as [i lbl m | i lbl kids m IH] using TreeNode_nested_ind;
    intros flat n Hn Hnodup Hproto; simpl in *.
  - apply list_elem_of_singleton in Hn as ->. by apply lookup_set_eq.
  - apply NoDup_cons in Hnodup as [Hi Hnodup].
    apply elem_of_cons in Hn as [-> | Hn].
    + rewrite fold_recurse_other by done. by apply lookup_set_eq.
    + by apply (fold_recurse_lookup kids IH).
Qed.

(** X6: when the ids of the option tree have pairwise different property
    keys, [optionsMap] maps the key of every node other than ["__proto__"] to
    that node's label, and it has no other own property. *)
Theorem X6_optionsMap_holds_every_label (options : list TreeNode) :
  NoDup (map JsObject.key (treeIds options)) →
  (∀ n, n ∈ allNodes options → JsObject.key (id n) ≠ "__proto__" →
        optionsMap options !! JsObject.key (id n) = Some (label n))
  ∧ (∀ k, is_Some (optionsMap options !! k) →
          k ∈ map JsObject.key (treeIds options)).
Proof.
  intros Hnodup. split.
  - intros n Hn Hproto. unfold optionsMap.
    apply fold_recurse_lookup; try done.
    apply Forall_forall. intros c _. apply recurse_lookup.
  - intros k [v Hv]. destruct (decide (k ∈ map JsObject.key (treeIds options)))
      as [Hin | Hout]; [done|].
    rewrite optionsMap_miss in Hv by done. discriminate.
Qed.

Lemma X6_optionsMap_holds_every_label_witness :
  NoDup (map JsObject.key (treeIds [fruit]))
  ∧ optionsMap [fruit] !! "3" = Some "Banana".
Proof.
  assert (NoDup (map JsObject.key (treeIds [fruit]))) as Hnodup.
  { apply (bool_decide_unpack _). vm_compute. exact I. }
  split; [exact Hnodup|].
  apply (proj1 (X6_optionsMap_holds_every_label [fruit] Hnodup)
               (leaf (IdNum 3) "Banana")).
  - cbn. apply elem_of_cons. right. apply elem_of_cons. right.
    apply elem_of_cons. by left.
  - discriminate.
Defined.




(** ** The delta of any activation *)

Lemma NoDup_removeSiblings (self : Id) (siblings : list TreeNode) :
  NoDup (removeSiblings self siblings).
Proof.
  unfold removeSiblings.
  enough (∀ toRemove, NoDup toRemove →
            NoDup (foldl (λ toRemove sibling,
                            if bool_decide (id sibling ≠ self)
                            then JsSet.add toRemove (id sibling) else toRemove)
                         toRemove siblings)) as H.
  { apply H, NoDup_nil_2. }
  induction siblings as [|s siblings IH]; intros toRemove Hnodup; simpl; [done|].
  apply IH. case_bool_decide; [by apply NoDup_add | done].
Qed.

(** X8: whatever the mode and the checked status, every delta a TreeNode
    emits has disjoint [add] and [remove] lists, and neither list holds an id
    twice (part_001 and part_000). *)
Theorem X8_delta_lists_disjoint_without_duplicates
    (props : TreeNodeV2.Props) (props0 : TreeNodeV1.Props) (delta : UpdatePayload) :
  delta ∈ emittedDeltas (TreeNodeV2.handleSelect props)
  ∨ delta ∈ emittedDeltas (TreeNodeV1.handleSelect props0) →
  NoDup (add delta) ∧ NoDup (remove delta) ∧ ∀ x, x ∈ add delta → x ∉ remove delta.
Proof.
  assert (∀ self siblings,
            NoDup (JsSet.add [] self) ∧ NoDup (removeSiblings self siblings)
            ∧ ∀ x, x ∈ JsSet.add [] self → x ∉ removeSiblings self siblings) as Hsingle.
  { intros self siblings. split; [apply NoDup_add, NoDup_nil_2|].
    split; [apply NoDup_removeSiblings|].
    intros x Hx. apply elem_of_add in Hx as [Hx | ->]; [by apply elem_of_nil in Hx|].
    rewrite elem_of_removeSiblings. tauto. }
  assert (∀ l : list Id,
            NoDup (foldl JsSet.add [] l) ∧ NoDup (@nil Id)
            ∧ ∀ x, x ∈ foldl JsSet.add [] l → x ∉ @nil Id) as Hadd.
  { intros l. split; [apply NoDup_foldl_add, NoDup_nil_2|].
    split; [apply NoDup_nil_2|]. intros x _. apply not_elem_of_nil. }
  assert (∀ l : list Id,
            NoDup (@nil Id) ∧ NoDup (foldl JsSet.add [] l)
            ∧ ∀ x, x ∈ @nil Id → x ∉ foldl JsSet.add [] l) as Hremove.
  { intros l. split; [apply NoDup_nil_2|].
    split; [apply NoDup_foldl_add, NoDup_nil_2|].
    intros x Hx. by apply elem_of_nil in Hx. }
  intros [Hin | Hin].
  - unfold TreeNodeV2.handleSelect in Hin.
    destruct (TreeNodeV2.currentMode props =? "single");
      destruct (TreeNodeV2.isChecked props); simpl in Hin;
      apply list_elem_of_singleton in Hin as ->; cbn [add remove];
      [apply (Hremove []) | apply Hsingle
      | apply (Hremove (_ :: _)) | apply (Hadd (_ :: _))].
  - unfold TreeNodeV1.handleSelect in Hin.
    destruct (TreeNodeV1.currentMode props0 =? "single");
      destruct (TreeNodeV1.isChecked props0); simpl in Hin;
      apply list_elem_of_singleton in Hin as ->; cbn [add remove];
      [apply (Hremove []) | apply Hsingle
      | apply (Hremove (_ :: _)) | apply (Hadd (_ :: _))].
Qed.

Lemma X8_delta_lists_disjoint_without_duplicates_witness :
  (mkUpdate [IdStr "s"] [IdStr "m"]
     ∈ emittedDeltas (TreeNodeV2.handleSelect smallUnderSizes)
   ∨ mkUpdate [IdStr "s"] [IdStr "m"]
       ∈ emittedDeltas (TreeNodeV1.handleSelect fruitSelectedV1))
  ∧ NoDup [IdStr "s"] ∧ NoDup [IdStr "m"]
  ∧ ∀ x, x ∈ [IdStr "s"] → x ∉ [IdStr "m"].
Proof.
  assert (mkUpdate [IdStr "s"] [IdStr "m"]
            ∈ emittedDeltas (TreeNodeV2.handleSelect smallUnderSizes)
          ∨ mkUpdate [IdStr "s"] [IdStr "m"]
              ∈ emittedDeltas (TreeNodeV1.handleSelect fruitSelectedV1)) as Hin.
  { left. apply list_elem_of_singleton. reflexivity. }
  split; [exact Hin|].
  exact (X8_delta_lists_disjoint_without_duplicates
           smallUnderSizes fruitSelectedV1 (mkUpdate [IdStr "s"] [IdStr "m"]) Hin).
Defined.

(** ** The mode of a node anywhere in the tree *)

Lemma currentMode_along (path : list TreeNode) (props : TreeNodeV2.Props) :
  TreeNodeV2.currentMode (foldl TreeNodeV2.childProps props path)
  = nearestMode (TreeNodeV2.currentMode props) path.
Proof.
  revert props. induction path as [|c path IH]; intros props; simpl; [done|].
  by rewrite IH, currentMode_child.
Qed.

(** X9: the mode of a node rendered below a top-level option of TreeSelect.vue
    is the last non-empty [selectionMode] on the path from that option to the
    node, and ["multiple"] when there is none; it is the same for every
    [multiple] prop, model value and search term of the TreeSelect. *)
Theorem X9_mode_is_nearest_override_on_path
    (widget widget' : TreeSelectV2.Props) (term term' : string)
    (root : TreeNode) (path : list TreeNode) :
  TreeNodeV2.currentMode (pathProps widget term root path)
  = nearestMode "multiple" (root :: path)
  ∧ TreeNodeV2.currentMode (pathProps widget term root path)
    = TreeNodeV2.currentMode (pathProps widget' term' root path).
Proof.
  assert (∀ w t, TreeNodeV2.currentMode (pathProps w t root path)
                 = nearestMode "multiple" (root :: path)) as H.
  { intros w t. unfold pathProps. rewrite currentMode_along, currentMode_root.
    reflexivity. }
  split; [apply H | by rewrite !H].
Qed.

(** ** Visibility across the tree *)

Lemma isVisible_isChildVisible (n : TreeNode) (term : string) :
  JsString.falsy term = false →
  isVisible n term = isChildVisible (JsString.toLowerCase term) n.
Proof.
  intros Hterm. unfold isVisible. rewrite Hterm.
  destruct n as [i lbl [kids|] m]; unfold hasChildren; simpl.
  - destruct (JsString.includes (JsString.toLowerCase lbl) (JsString.toLowerCase term));
      [done|]. simpl. destruct kids; [done|].
    by rewrite bool_decide_eq_true_2 by (simpl; lia).
  - by destruct (JsString.includes (JsString.toLowerCase lbl) (JsString.toLowerCase term)).
Qed.

Lemma descendants_trans (n : TreeNode) :
  ∀ d e, d ∈ descendants n → e ∈ descendants d → e ∈ descendants n.
Proof.
  induction n as [i lbl m | i lbl kids m IH] using TreeNode_nested_ind;
    intros d e Hd He; simpl in *.
  - by apply elem_of_nil in Hd.
  - apply list_elem_of_In, in_flat_map in Hd as (c & Hc & Hd).
    apply list_elem_of_In, in_flat_map. exists c. split; [done|].
    apply list_elem_of_In. apply list_elem_of_In in Hd, Hc.
    apply elem_of_cons in Hd as [-> | Hd]; [by right|].
    right. rewrite Forall_forall in IH. by apply (IH c Hc d e).
Qed.

Lemma isVisible_descendant (n d : TreeNode) (term : string) :
  d ∈ descendants n → isVisible d term = true → isVisible n term = true.
Proof.
  intros Hd Hvis. destruct (JsString.falsy term) eqn:Hterm.
  - unfold isVisible. by rewrite Hterm.
  - rewrite isVisible_isChildVisible in * by done.
    apply isChildVisible_subtree in Hvis as (e & He & Hmatch).
    apply isChildVisible_subtree. exists e. split; [|done]. right.
    apply elem_of_cons in He as [-> | He]; [done|].
    by apply (descendants_trans n d e).
Qed.

Lemma filter_flat_map {A B : Type} (p : B → bool) (f : A → list B) (l : list A) :
  List.filter p (List.flat_map f l) = List.flat_map (λ x, List.filter p (f x)) l.
Proof.
  induction l as [|x l IH]; simpl; [done|]. by rewrite List.filter_app, IH.
Qed.

Lemma filter_nothing {A : Type} (p : A → bool) (l : list A) :
  (∀ x, x ∈ l → p x = false) → List.filter p l = [].
Proof.
  induction l as [|y l IH]; intros Hp; simpl; [done|].
  rewrite (Hp y) by (by left). apply IH. intros x Hx. apply Hp. by right.
Qed.

Lemma flat_map_renderedNodes (term : string) (kids : list TreeNode) :
  Forall (λ c, renderedNodes term c
               = List.filter (λ d, isVisible d term) (c :: descendants c)) kids →
  List.flat_map (renderedNodes term) kids
  = List.filter (λ d, isVisible d term)
                (List.flat_map (λ c, c :: descendants c) kids).
Proof.
  intros IH. rewrite filter_flat_map.
  induction IH as [|c kids Hc _ IHk]; simpl; [done|]. by rewrite Hc, IHk.
Qed.

(** X10: a node with a visible descendant is visible, so the per-node
    [v-if="isVisible"] of the TreeNode template hides no visible node behind
    an invisible ancestor: with every node expanded, the rows rendered for a
    node are exactly the visible nodes of its subtree, in depth-first order. *)
Theorem X10_rendered_rows_are_the_visible_nodes (term : string) (n : TreeNode) :
  (∀ d, d ∈ descendants n → isVisible d term = true → isVisible n term = true)
  ∧ renderedNodes term n
    = List.filter (λ d, isVisible d term) (n :: descendants n).
Proof.
  split; [intros d; apply isVisible_descendant|].
  induction n as [i lbl m | i lbl kids m IH] using TreeNode_nested_ind.
  - simpl. by destruct (isVisible _ term).
  - cbn [renderedNodes List.filter].
    destruct (isVisible (mkTreeNode i lbl (Some kids) m) term) eqn:Hvis.
    + f_equal. cbn [descendants]. rewrite <- (flat_map_renderedNodes term kids IH).
      unfold hasChildren. cbn [children]. destruct kids; [done|].
      by rewrite bool_decide_eq_true_2 by (simpl; lia).
    + symmetry. apply filter_nothing. intros d Hd.
      apply not_true_is_false. intros Hd'.
      rewrite (isVisible_descendant _ d term Hd Hd') in Hvis. discriminate.
Qed.

Lemma toLowerCase_empty (s : string) : JsString.toLowerCase s = "" ↔ s = "".
Proof. destruct s; simpl; split; intros H; by try discriminate. Qed.

(** X11: visibility depends on the search term only through its lower-case
    form: two terms that differ in case only show the same nodes. *)
Theorem X11_visibility_ignores_case_of_term (n : TreeNode) (term1 term2 : string) :
  JsString.toLowerCase term1 = JsString.toLowerCase term2 →
  isVisible n term1 = isVisible n term2.
Proof.
  intros Hlower. unfold isVisible. rewrite Hlower.
  assert (JsString.falsy term1 = JsString.falsy term2) as ->; [|done].
  destruct (JsString.falsy term1) eqn:H1.
  - apply falsy_empty in H1. subst term1. simpl in Hlower. symmetry in Hlower.
    apply (proj1 (toLowerCase_empty _)) in Hlower. by subst term2.
  - destruct (JsString.falsy term2) eqn:H2; [|done].
    apply falsy_empty in H2. subst term2. simpl in Hlower.
    apply (proj1 (toLowerCase_empty _)) in Hlower. subst term1. discriminate.
Qed.

Lemma X11_visibility_ignores_case_of_term_witness :
  JsString.toLowerCase "APP" = JsString.toLowerCase "app"
  ∧ isVisible fruit "APP" = isVisible fruit "app".
Proof.
  split; [reflexivity|].
  apply (X11_visibility_ignores_case_of_term fruit "APP" "app"). reflexivity.
Defined.

(** ** Indeterminate status in terms of the descendants *)

Lemma filter_nonempty (p : Id → bool) (l : list Id) :
  (0 < length (List.filter p l))%nat ↔ ∃ x, x ∈ l ∧ p x = true.
Proof.
  induction l as [|y l IH]; simpl.
  - split; [lia|]. intros (x & Hx & _). by apply elem_of_nil in Hx.
  - destruct (p y) eqn:Hy; simpl.
    + split; [|lia]. intros _. exists y. split; [by left|done].
    + rewrite IH. split.
      * intros (x & Hx & Hp). exists x. split; [by right|done].
      * intros (x & Hx & Hp). apply elem_of_cons in Hx as [-> | Hx]; [congruence|].
        by exists x.
Qed.

Lemma filter_le (p : Id → bool) (l : list Id) :
  (length (List.filter p l) ≤ length l)%nat.
Proof. induction l as [|y l IH]; simpl; [lia|]. destruct (p y); simpl; lia. Qed.

Lemma filter_not_all (p : Id → bool) (l : list Id) :
  (length (List.filter p l) < length l)%nat ↔ ∃ x, x ∈ l ∧ p x = false.
Proof.
  induction l as [|y l IH]; simpl.
  - split; [lia|]. intros (x & Hx & _). by apply elem_of_nil in Hx.
  - pose proof (filter_le p l). destruct (p y) eqn:Hy; simpl.
    + rewrite <- Nat.succ_lt_mono, IH. split.
      * intros (x & Hx & Hp). exists x. split; [by right|done].
      * intros (x & Hx & Hp). apply elem_of_cons in Hx as [-> | Hx]; [congruence|].
        by exists x.
    + split; [|lia]. intros _. exists y. split; [by left|done].
Qed.

Lemma elem_of_allDescendantIds (n : TreeNode) (x : Id) :
  x ∈ allDescendantIds n ↔ ∃ d, d ∈ descendants n ∧ id d = x.
Proof.
  rewrite allDescendantIds_descendants, list_elem_of_In, in_map_iff.
  split; intros (d & H1 & H2); exists d; by rewrite ?list_elem_of_In in *.
Qed.

(** X12: in part_001 a node is indeterminate exactly when its mode is
    ["multiple"], it is not checked, some descendant has its id in the
    selection array and some descendant has not. *)
Theorem X12_indeterminate_iff_mixed_descendants (props : TreeNodeV2.Props) :
  TreeNodeV2.isIndeterminate props = true
  ↔ TreeNodeV2.currentMode props = "multiple"
    ∧ TreeNodeV2.isChecked props = false
    ∧ (∃ d, d ∈ descendants (TreeNodeV2.node props)
            ∧ id d ∈ TreeNodeV2.modelValueArray (TreeNodeV2.modelValue props))
    ∧ (∃ d, d ∈ descendants (TreeNodeV2.node props)
            ∧ id d ∉ TreeNodeV2.modelValueArray (TreeNodeV2.modelValue props)).
Proof.
  set (sel := TreeNodeV2.modelValueArray (TreeNodeV2.modelValue props)).
  set (n := TreeNodeV2.node props).
  assert ((∃ d, d ∈ descendants n ∧ id d ∈ sel)
          ↔ (0 < length (List.filter (JsArray.includes sel) (allDescendantIds n)))%nat)
    as Hsome.
  { rewrite filter_nonempty. split.
    - intros (d & Hd & Hin). exists (id d).
      rewrite elem_of_allDescendantIds, elem_of_includes. eauto.
    - intros (x & Hx & Hin). apply elem_of_allDescendantIds in Hx as (d & Hd & <-).
      apply elem_of_includes in Hin. eauto. }
  assert ((∃ d, d ∈ descendants n ∧ id d ∉ sel)
          ↔ (length (List.filter (JsArray.includes sel) (allDescendantIds n))
             < length (allDescendantIds n))%nat) as Hnotall.
  { rewrite filter_not_all. split.
    - intros (d & Hd & Hout). exists (id d). rewrite elem_of_allDescendantIds.
      split; [eauto|]. apply not_true_is_false. by rewrite elem_of_includes.
    - intros (x & Hx & Hout). apply elem_of_allDescendantIds in Hx as (d & Hd & <-).
      exists d. split; [done|]. rewrite <- elem_of_includes. congruence. }
  rewrite Hsome, Hnotall. unfold TreeNodeV2.isIndeterminate. fold n sel.
  destruct (TreeNodeV2.currentMode props =? "multiple") eqn:Hmode.
  - apply String.eqb_eq in Hmode. cbn [negb orb].
    destruct (TreeNodeV2.isChecked props).
    + rewrite orb_true_r. split; [discriminate | intros (_ & ? & _); discriminate].
    + rewrite orb_false_r. destruct (hasChildren n) eqn:Hkids; cbn [negb].
      * rewrite andb_true_iff, !bool_decide_eq_true. tauto.
      * split; [discriminate|]. intros (_ & _ & Hpos & _). exfalso.
        unfold allDescendantIds in Hpos. rewrite Hkids in Hpos. simpl in Hpos. lia.
  - cbn [negb orb]. split; [discriminate|]. intros (Heq & _).
    rewrite Heq in Hmode. discriminate.
Qed.

(** ** The dropdown *)

Lemma dispatch_multiple_keeps_state (widget : TreeSelectV2.Props) (e : NodeEvent)
    (s : Dropdown.State) :
  TreeSelectV2.multiple widget = true →
  Dropdown.applyEffects s (TreeSelectV2.dispatch widget e) = s.
Proof.
  intros Hm. destruct e as [payload | payload]; simpl.
  - unfold TreeSelectV2.handleNodeSelect. by rewrite Hm.
  - unfold TreeSelectV2.handleNodeUpdate. by rewrite Hm.
Qed.

Lemma applyEffects_app (s : Dropdown.State) (e1 e2 : list Effect) :
  Dropdown.applyEffects s (e1 ++ e2)
  = Dropdown.applyEffects (Dropdown.applyEffects s e1) e2.
Proof. apply foldl_app. Qed.

(** X13: in a TreeSelect in multiple mode no activation, of any node in any
    mode, closes the dropdown or touches the search term. *)
Theorem X13_multiple_mode_never_closes
    (widget : TreeSelectV2.Props) (props : TreeNodeV2.Props) (s : Dropdown.State) :
  TreeSelectV2.multiple widget = true →
  Dropdown.applyEffects s (TreeSelectV2.activate widget props) = s.
Proof.
  intros Hm. unfold TreeSelectV2.activate.
  induction (TreeNodeV2.handleSelect props) as [|e events IH]; simpl; [done|].
  by rewrite applyEffects_app, dispatch_multiple_keeps_state.
Qed.

Lemma X13_multiple_mode_never_closes_witness :
  TreeSelectV2.multiple (fruitWidget []) = true
  ∧ Dropdown.applyEffects (Dropdown.mkState true "app")
      (TreeSelectV2.activate (fruitWidget []) fruitUnselectedV2)
    = Dropdown.mkState true "app".
Proof.
  split; [reflexivity|].
  apply (X13_multiple_mode_never_closes (fruitWidget []) fruitUnselectedV2).
  reflexivity.
Defined.

(** X14: in a TreeSelect in single mode, activating an unchecked single-mode
    node emits the node's id as the new model value (for the [select] and
    again for the [update] event), whatever the current value and the
    siblings are; the dropdown is closed and the search term reset, so that
    every node is visible when the dropdown is opened again. *)
Theorem X14_single_selection_replaces_value_and_closes
    (widget : TreeSelectV2.Props) (props : TreeNodeV2.Props) (s : Dropdown.State)
    (n : TreeNode) :
  TreeSelectV2.multiple widget = false →
  TreeNodeV2.currentMode props = "single" →
  TreeNodeV2.isChecked props = false →
  emittedValues (TreeSelectV2.activate widget props)
  = [MVId (id (TreeNodeV2.node props)); MVId (id (TreeNodeV2.node props))]
  ∧ Dropdown.applyEffects s (TreeSelectV2.activate widget props)
    = Dropdown.mkState false ""
  ∧ isVisible n
      (Dropdown.searchTerm
         (Dropdown.applyEffects s (TreeSelectV2.activate widget props)))
    = true.
Proof.
  intros Hm Hmode Hchecked.
  assert (TreeSelectV2.activate widget props
          = [EmitModelValue (MVId (id (TreeNodeV2.node props))); CloseDropdown;
             EmitModelValue (MVId (id (TreeNodeV2.node props))); CloseDropdown])
    as Heffects.
  { unfold TreeSelectV2.activate, TreeNodeV2.handleSelect.
    rewrite Hmode, Hchecked. simpl.
    unfold TreeSelectV2.handleNodeSelect, TreeSelectV2.handleNodeUpdate.
    rewrite Hm. reflexivity. }
  rewrite Heffects. repeat split.
Qed.

Lemma X14_single_selection_replaces_value_and_closes_witness :
  (TreeSelectV2.multiple (sizesWidget MVNull) = false
   ∧ TreeNodeV2.currentMode smallUnderSizes = "single"
   ∧ TreeNodeV2.isChecked smallUnderSizes = false)
  ∧ emittedValues
      (TreeSelectV2.activate (sizesWidget MVNull) smallUnderSizes)
    = [MVId (IdStr "s"); MVId (IdStr "s")].
Proof.
  split; [repeat split|].
  apply (X14_single_selection_replaces_value_and_closes
           (sizesWidget MVNull) smallUnderSizes
           (Dropdown.mkState true "") fruit); reflexivity.
Defined.

(** X15: a click outside the mounted container closes the dropdown and resets
    the search term, so that every node is visible afterwards; a click inside,
    or any click before the container is mounted, changes nothing.  Closing
    with [toggleDropdown] keeps the search term, and two toggles restore the
    state. *)
Theorem X15_outside_click_resets_search_toggle_keeps_it
    (s : Dropdown.State) (n : TreeNode) (mounted inside : bool) (term : string) :
  Dropdown.handleClickOutside true false s = Dropdown.mkState false ""
  ∧ isVisible n (Dropdown.searchTerm (Dropdown.handleClickOutside true false s)) = true
  ∧ Dropdown.handleClickOutside mounted true s = s
  ∧ Dropdown.handleClickOutside false inside s = s
  ∧ Dropdown.toggleDropdown (Dropdown.mkState true term) = Dropdown.mkState false term
  ∧ Dropdown.toggleDropdown (Dropdown.toggleDropdown s) = s.
Proof.
  repeat split.
  - unfold Dropdown.handleClickOutside. by rewrite andb_false_r.
  - destruct s as [o t]. unfold Dropdown.toggleDropdown. simpl.
    by rewrite negb_involutive.
Qed.

(** X16: [toggleExpand] does nothing on a node without children, also when
    [children] is an empty array, and on any node two toggles restore the
    expanded state. *)
Theorem X16_toggleExpand_only_with_children
    (n : TreeNode) (i : Id) (lbl : string) (m : option string) (isExpanded : bool) :
  toggleExpand (mkTreeNode i lbl None m) isExpanded = isExpanded
  ∧ toggleExpand (mkTreeNode i lbl (Some []) m) isExpanded = isExpanded
  ∧ toggleExpand n (toggleExpand n isExpanded) = isExpanded.
Proof.
  repeat split. unfold toggleExpand.
  destruct (hasChildren n); [apply negb_involutive | done].
Qed.

(** ** The order of the selection in part_002 *)

Lemma foldl_add_appends (l s : list Id) :
  ∃ appended,
    foldl JsSet.add s l = (s ++ appended)%list
    ∧ ∀ x, x ∈ appended ↔ x ∈ l ∧ x ∉ s.
Proof.
  revert s. induction l as [|y l IH]; intros s; simpl.
  - exists []. split; [by rewrite app_nil_r|].
    intros x. rewrite !elem_of_nil. tauto.
  - destruct (decide (y ∈ s)) as [Hy | Hy].
    + rewrite (add_present s y Hy). destruct (IH s) as (appended & Heq & Hchar).
      exists appended. split; [done|]. intros x. rewrite Hchar, elem_of_cons.
      split; [tauto|]. intros [[-> | Hx] Hs]; [done | tauto].
    + rewrite (add_absent s y Hy).
      destruct (IH (s ++ [y])%list) as (appended & Heq & Hchar).
      exists (y :: appended). split; [by rewrite Heq, <- app_assoc|].
      intros x. rewrite !elem_of_cons, Hchar, elem_of_app, list_elem_of_singleton.
      destruct (decide (x = y)) as [-> | Hne]; tauto.
Qed.

Lemma filter_ne_comm (x y : Id) (l : list Id) :
  filter (λ z, z ≠ y) (filter (λ z, z ≠ x) l)
  = filter (λ z, z ≠ x) (filter (λ z, z ≠ y) l).
Proof.
  rewrite !list_filter_filter. apply list_filter_iff. intros z. tauto.
Qed.

Lemma firstOccurrences_filter_ne (y : Id) (l : list Id) :
  firstOccurrences (filter (λ z, z ≠ y) l)
  = filter (λ z, z ≠ y) (firstOccurrences l).
Proof.
  induction l as [|x l IH]; [done|]. cbn [firstOccurrences].
  destruct (decide (x = y)) as [-> | Hne].
  - rewrite filter_cons_False by (intros H; by apply H).
    rewrite (filter_cons_False _ y) by (intros H; by apply H).
    rewrite IH, list_filter_filter. apply list_filter_iff. intros z. tauto.
  - rewrite filter_cons_True by done. cbn [firstOccurrences].
    rewrite (filter_cons_True _ x) by done.
    by rewrite IH, filter_ne_comm.
Qed.

(** Adding the ids of [l] to a set appends, in the order of [l], the first
    occurrence of each id of [l] that the set does not hold. *)
Lemma foldl_add_firstOccurrences (l s : list Id) :
  foldl JsSet.add s l
  = (s ++ firstOccurrences (filter (λ y, y ∉ s) l))%list.
Proof.
  revert s. induction l as [|y l IH]; intros s; cbn [foldl].
  - by rewrite app_nil_r.
  - destruct (decide (y ∈ s)) as [Hy | Hy].
    + rewrite (add_present s y Hy), IH.
      by rewrite (filter_cons_False _ y) by (intros H; by apply H).
    + rewrite (add_absent s y Hy), IH, <- app_assoc.
      rewrite (filter_cons_True _ y) by done. cbn [firstOccurrences app].
      do 2 f_equal. rewrite <- firstOccurrences_filter_ne. f_equal.
      rewrite list_filter_filter. apply list_filter_iff. intros z.
      rewrite not_elem_of_app, list_elem_of_singleton. tauto.
Qed.

(** X17: part_002 keeps insertion order.  For a current selection without
    repetitions, the array [handleNodeUpdate] emits in multiple mode is the
    current selection followed by the ids of [add] that were not selected,
    each once, in the order of their first occurrence in [add], with the ids
    of [remove] left out. *)
Theorem X17_part002_keeps_insertion_order
    (options : list TreeNode) (placeholder : string) (S add remove : list Id) :
  NoDup S →
  TreeSelectV1.handleNodeUpdate
    (TreeSelectV1.mkProps options (MVArr S) true placeholder)
    (mkUpdate add remove)
  = [EmitModelValue
       (MVArr (filter (λ y, y ∉ remove)
                      (S ++ firstOccurrences (filter (λ y, y ∉ S) add))%list))].
Proof.
  intros HS. unfold TreeSelectV1.handleNodeUpdate. simpl.
  by rewrite (new_NoDup S HS), foldl_add_firstOccurrences, foldl_delete_filter.
Qed.

Lemma X17_part002_keeps_insertion_order_witness :
  NoDup [IdNum 3; IdNum 1]
  ∧ TreeSelectV1.handleNodeUpdate
      (TreeSelectV1.mkProps [fruit] (MVArr [IdNum 3; IdNum 1]) true "Select...")
      (mkUpdate [IdNum 2; IdNum 3; IdNum 7; IdNum 2] [IdNum 1])
    = [EmitModelValue (MVArr [IdNum 3; IdNum 2; IdNum 7])].
Proof.
  assert (NoDup [IdNum 3; IdNum 1]) as HS.
  { apply (bool_decide_unpack _). vm_compute. exact I. }
  split; [exact HS|].
  rewrite (X17_part002_keeps_insertion_order [fruit] "Select..."
             [IdNum 3; IdNum 1] [IdNum 2; IdNum 3; IdNum 7; IdNum 2] [IdNum 1] HS).
  vm_compute. reflexivity.
Defined.

(** ** The [select] handler *)

(** X18: in multiple mode [handleNodeSelect] emits, as a set, the current
    selection with the payload's [ids] added when [isSelected] is true and
    with them removed otherwise (a value that is not an array counts as
    empty); in single mode it emits the payload's [id] and closes the
    dropdown, whatever the current value is (TreeSelect.vue and part_002). *)
Theorem X18_handleNodeSelect_adds_or_removes_ids
    (options : list TreeNode) (v : ModelValue) (placeholder : string)
    (i : Id) (ids : list Id) (selecting : bool) :
  (∃ S',
      TreeSelectV2.handleNodeSelect
        (TreeSelectV2.mkProps options v true placeholder)
        (mkSelect None ids selecting) = [EmitModelValue (MVArr S')]
      ∧ ∀ x, x ∈ S' ↔ if selecting
                       then x ∈ TreeNodeV2.modelValueArray v ∨ x ∈ ids
                       else x ∈ TreeNodeV2.modelValueArray v ∧ x ∉ ids)
  ∧ (∃ S',
      TreeSelectV1.handleNodeSelect
        (TreeSelectV1.mkProps options v true placeholder)
        (mkSelect None ids selecting) = [EmitModelValue (MVArr S')]
      ∧ ∀ x, x ∈ S' ↔ if selecting
                       then x ∈ TreeNodeV2.modelValueArray v ∨ x ∈ ids
                       else x ∈ TreeNodeV2.modelValueArray v ∧ x ∉ ids)
  ∧ TreeSelectV2.handleNodeSelect
      (TreeSelectV2.mkProps options v false placeholder)
      (mkSelect (Some i) ids selecting) = [EmitModelValue (MVId i); CloseDropdown]
  ∧ TreeSelectV1.handleNodeSelect
      (TreeSelectV1.mkProps options v false placeholder)
      (mkSelect (Some i) ids selecting) = [EmitModelValue (MVId i); CloseDropdown].
Proof.
  split; [|split; [|split; reflexivity]].
  - eexists. split; [reflexivity|]. intros x.
    unfold TreeSelectV2.sortedSelection. rewrite elem_of_sort. simpl.
    destruct selecting.
    + by rewrite elem_of_foldl_add, elem_of_new.
    + by rewrite elem_of_foldl_delete, elem_of_new.
  - eexists. split; [reflexivity|]. intros x. simpl. destruct selecting.
    + by rewrite elem_of_foldl_add, elem_of_new.
    + by rewrite elem_of_foldl_delete, elem_of_new.
Qed.

(** ** Descendant ids *)

(** X19: [allDescendantIds] lists the id of every node below the node, one
    entry per node in depth-first order and without the node's own entry; it
    is empty exactly when [hasChildren] is false. *)
Theorem X19_allDescendantIds_lists_the_subtree (n : TreeNode) :
  allDescendantIds n = map id (descendants n)
  ∧ (allDescendantIds n = [] ↔ hasChildren n = false).
Proof.
  split.
  - destruct n as [i lbl [kids|] m]; unfold allDescendantIds, hasChildren; simpl;
      [|done].
    destruct kids as [|c kids]; [done|].
    rewrite bool_decide_eq_true_2 by (simpl; lia).
    apply flat_map_collectIds, Forall_forall. intros x _. apply collectIds_descendants.
  - unfold allDescendantIds. destruct (hasChildren n) eqn:Hkids; [|done].
    split; [|discriminate]. intros Hempty. exfalso.
    destruct n as [i lbl [kids|] m]; unfold hasChildren in Hkids; simpl in *;
      [|discriminate].
    destruct kids as [|c kids]; [discriminate|].
    simpl in Hempty. destruct c. simpl in Hempty. discriminate.
Qed.

(** ** Activations across modes *)

Lemma foldl_add_targets_cons (self : Id) (l : list Id) :
  ∃ rest, foldl JsSet.add [] (self :: l) = self :: rest.
Proof.
  simpl. destruct (foldl_add_appends l (JsSet.add [] self)) as (appended & Heq & _).
  exists appended. rewrite Heq. reflexivity.
Qed.

(** X20: in a TreeSelect.vue in single mode, the activation of a node that is
    not in single mode first emits an undefined value ([select] has no [id])
    and closes the dropdown, then emits the node's id when the node was not checked, and
    [null] when it was: clicking the selected node again clears the
    selection. *)
Theorem X20_single_widget_multiple_node_selects_or_clears
    (widget : TreeSelectV2.Props) (props : TreeNodeV2.Props) (s : Dropdown.State) :
  TreeSelectV2.multiple widget = false →
  TreeNodeV2.currentMode props ≠ "single" →
  emittedValues (TreeSelectV2.activate widget props)
  = [MVNull;
     if TreeNodeV2.isChecked props then MVNull else MVId (id (TreeNodeV2.node props))]
  ∧ Dropdown.applyEffects s (TreeSelectV2.activate widget props)
    = Dropdown.mkState false "".
Proof.
  intros Hm Hmode. unfold TreeSelectV2.activate, TreeNodeV2.handleSelect.
  destruct (TreeNodeV2.currentMode props =? "single") eqn:Heq.
  { by apply String.eqb_eq in Heq. }
  destruct (foldl_add_targets_cons (id (TreeNodeV2.node props))
              (allDescendantIds (TreeNodeV2.node props))) as (rest & Htargets).
  cbn [List.flat_map TreeSelectV2.dispatch app].
  unfold TreeSelectV2.handleNodeSelect, TreeSelectV2.handleNodeUpdate.
  rewrite Hm. destruct (TreeNodeV2.isChecked props); cbn [negb add remove sel_id];
    rewrite Htargets; split; reflexivity.
Qed.

Lemma X20_single_widget_multiple_node_selects_or_clears_witness :
  (TreeSelectV2.multiple singleWidget = false
   ∧ TreeNodeV2.currentMode (TreeSelectV2.rootProps singleWidget "" fruit) ≠ "single")
  ∧ emittedValues
      (TreeSelectV2.activate singleWidget (TreeSelectV2.rootProps singleWidget "" fruit))
    = [MVNull; MVId (IdNum 1)].
Proof.
  assert (TreeNodeV2.currentMode (TreeSelectV2.rootProps singleWidget "" fruit)
          ≠ "single") as Hmode by discriminate.
  split; [split; [reflexivity | exact Hmode]|].
  apply (X20_single_widget_multiple_node_selects_or_clears singleWidget
           (TreeSelectV2.rootProps singleWidget "" fruit)
           (Dropdown.mkState true "") eq_refl Hmode).
Defined.


